(** * Praximous gateway: routing, failover and health aggregation

    A shallow embedding of [core/system_context.py], [core/provider_manager.py]
    and [core/model_router.py], and the properties of the routing and failover
    engine proved over it.

    Python dictionaries with string keys are [gmap string _]; the provider
    registry, whose iteration order is observable in the health report, is an
    insertion-ordered association list.  Calls to collaborators (the backends,
    the prompt hook) run in a state-and-exception monad whose state holds the
    outside world and the sequence of collaborator calls made so far. *)

From Stdlib Require Import Ascii.
From stdpp Require Import base option list strings gmap.

Set Default Proof Using "Type".

(** ** Strings *)

(** [sep.join(l)] *)
Fixpoint join (sep : string) (l : list string) : string :=
  match l with
  | [] => EmptyString
  | x :: l' =>
      match l' with
      | [] => x
      | _ :: _ => x +:+ sep +:+ join sep l'
      end
  end.

(** The line feed character, as a string. *)
Definition newline : string := String (Ascii.ascii_of_nat 10) EmptyString.

(** Truth value of a Python string: the empty string is falsy. *)
Definition nonempty (s : string) : bool :=
  match s with
  | EmptyString => false
  | String _ _ => true
  end.

(** Truth value of [d.get(k)] for a string-valued entry: a missing key gives
    [None], which is falsy. *)
Definition truthy (o : option string) : bool :=
  match o with
  | Some s => nonempty s
  | None => false
  end.

Definition string_rev (s : string) : string :=
  String.string_of_list_ascii (rev (String.list_ascii_of_string s)).

(** [s.endswith(suffix)] *)
Definition endswith (s suffix : string) : bool :=
  String.prefix (string_rev suffix) (string_rev s).

Fixpoint lstrip_char (c : ascii) (s : string) : string :=
  match s with
  | String a s' => if Ascii.eqb a c then lstrip_char c s' else s
  | EmptyString => EmptyString
  end.

(** [s.rstrip(c)] for a single character [c] *)
Definition rstrip_char (c : ascii) (s : string) : string :=
  string_rev (lstrip_char c (string_rev s)).

(** [c.isspace()] for a character [c] below 256: tab to carriage return,
    the four separators FS, GS, RS and US, the space, NEL and the no-break
    space. *)
Definition is_space (a : ascii) : bool :=
  let n := Ascii.nat_of_ascii a in
  ((9 <=? n) && (n <=? 13)) || ((28 <=? n) && (n <=? 32))
  || (n =? 133) || (n =? 160).

Fixpoint lstrip (s : string) : string :=
  match s with
  | String a s' => if is_space a then lstrip s' else s
  | EmptyString => EmptyString
  end.

(** [s.strip()] *)
Definition strip (s : string) : string :=
  string_rev (lstrip (string_rev (lstrip s))).

(** ** Exceptions *)

(** The exception classes the gateway tells apart; [str(e)] is [exn_msg]. *)
Inductive ExnClass :=
  | ValueError
  | NoAvailableProviderError
  | HttpxRequestError
  | OtherException.

Record Exn := mkExn { exn_class : ExnClass; exn_msg : string }.

Global Instance ExnClass_eq_dec : EqDecision ExnClass.
Proof. solve_decision. Defined.

Global Instance Exn_eq_dec : EqDecision Exn.
Proof. solve_decision. Defined.

(** ** Collaborator calls *)

(** One entry per call the router or the aggregator makes to a collaborator,
    and per chunk handed to the consumer of a stream. *)
Inductive Event :=
  | EvGetSystemPrompt (user_prompt : string)
  | EvGenerate (provider : string) (prompt : string)
  | EvStream (provider : string) (prompt : string)
  | EvYield (chunk : gmap string string)
  | EvCheckHealth (provider : string).

Global Instance Event_eq_dec : EqDecision Event.
Proof. solve_decision. Defined.

Definition is_hook_call (ev : Event) : bool :=
  match ev with
  | EvGetSystemPrompt _ => true
  | _ => false
  end.

(** Number of times the prompt-decoration hook was called. *)
Definition hook_calls (t : list Event) : nat :=
  length (List.filter is_hook_call t).

(** ** core/system_context.py *)

Module SystemContext.

(** [SystemContext._identity_data], the parsed [identity.yaml]. *)
Record t := mk { _identity_data : gmap string string }.

Definition system_name (self : t) : option string :=
  Some (default "Praximous-Unconfigured" (_identity_data self !! "system_name")).

Definition business_name (self : t) : option string :=
  _identity_data self !! "business_name".

Definition industry (self : t) : option string :=
  _identity_data self !! "industry".

Definition persona_style (self : t) : option string :=
  _identity_data self !! "persona_style".

Definition get_system_prompt (self : t) (user_prompt : string) : string :=
  if truthy (system_name self) && truthy (business_name self) && truthy (industry self)
  then
    let persona :=
      if truthy (persona_style self)
      then default EmptyString (persona_style self)
      else "a helpful AI assistant" in
    "You are " +:+ default EmptyString (system_name self)
      +:+ ", a specialized AI for " +:+ default EmptyString (business_name self) +:+ ", "
      +:+ "which operates in the " +:+ default EmptyString (industry self) +:+ " industry. "
      +:+ "Your persona should be: " +:+ persona +:+ ". "
      +:+ "Given the user's request, provide a response."
      +:+ newline +:+ newline +:+ "---" +:+ newline +:+ newline
      +:+ "User Request: " +:+ user_prompt
  else user_prompt.

End SystemContext.

(** ** The state-and-exception monad of the gateway *)

Section Monad.
Context {W : Type}.

(** The outside world (backends, clock) and the calls made so far. *)
Record State := mkState { world : W; trace : list Event }.

Definition M (A : Type) : Type := State → (Exn + A) * State.

Definition ret {A} (a : A) : M A := λ st, (inr a, st).

Definition raise {A} (e : Exn) : M A := λ st, (inl e, st).

Definition bind {A B} (m : M A) (k : A → M B) : M B := λ st,
  match m st with
  | (inr a, st') => k a st'
  | (inl e, st') => (inl e, st')
  end.

(** [try: body  except Exception as e: handler e]; the effects of a body
    that raised are kept. *)
Definition try_except {A} (body : M A) (handler : Exn → M A) : M A := λ st,
  match body st with
  | (inr a, st') => (inr a, st')
  | (inl e, st') => handler e st'
  end.

(** A call to a collaborator: recorded, then run against the world. *)
Definition call {A} (ev : Event) (f : W → (Exn + A) * W) : M A := λ st,
  let '(r, w') := f (world st) in
  (r, mkState w' (trace st ++ [ev])).

Definition emit (evs : list Event) : M unit := λ st,
  (inr tt, mkState (world st) (trace st ++ evs)).

End Monad.

Arguments State : clear implicits.
Arguments M : clear implicits.

Declare Scope gateway_scope.
Delimit Scope gateway_scope with gw.
Notation "'let*' x ':=' c 'in' k" := (bind c (λ x, k))
  (at level 10, x name, c at level 100, k at level 200) : gateway_scope.
Open Scope gateway_scope.

(** ** Insertion-ordered dictionaries *)

(** [d[k] = v]: an existing key keeps its position, a new key goes last. *)
Fixpoint dict_set {V} (k : string) (v : V) (d : list (string * V)) : list (string * V) :=
  match d with
  | [] => [(k, v)]
  | (k', v') :: d' =>
      if decide (k = k') then (k, v) :: d' else (k', v') :: dict_set k v d'
  end.

(** [d.get(k)] *)
Fixpoint dict_get {V} (k : string) (d : list (string * V)) : option V :=
  match d with
  | [] => None
  | (k', v') :: d' => if decide (k = k') then Some v' else dict_get k d'
  end.

(** [d.values()] *)
Definition dict_values {V} (d : list (string * V)) : list V := map snd d.

(** ** Configuration files *)

(** What opening and parsing a YAML file gives: [open] raised
    [FileNotFoundError], something else raised, or a document was parsed. *)
Inductive YamlFile (A : Type) :=
  | FileMissing
  | FileUnreadable (e : Exn)
  | FileParsed (config : A).
Arguments FileMissing {A}.
Arguments FileUnreadable {A} e.
Arguments FileParsed {A} config.

(** One entry of the [providers] list of [providers.yaml]; a missing key is
    [None]. *)
Record ProviderConfig := mkProviderConfig {
  cfg_name : option string;
  cfg_type : option string;
  cfg_enabled : option bool;
  cfg_priority : option Z;
  cfg_model : option string;
  cfg_api_key_env : option string;
  cfg_base_url_env : option string
}.

Inductive ConfigEntry :=
  | EntryDict (c : ProviderConfig)
  | EntryOther.

(** The value under the [providers] key. *)
Inductive ProvidersValue :=
  | PVList (entries : list ConfigEntry)
  | PVOther.

(** What [json.loads(line)] gives on a line of an Ollama stream. *)
Inductive JsonResult :=
  | JsonDecodeError
  | JsonObject (fields : gmap string string)
  | JsonOther (type_name : string).

(** What a health probe hands back to the aggregator. *)
Inductive HealthValue :=
  | HDict (d : gmap string string)
  | HException (e : Exn)
  | HOther.

Record Metadata := mkMetadata {
  md_name : string;
  md_type : option string;
  md_priority : option Z;
  md_enabled : bool;
  md_extra : gmap string string
}.

(** ** core/provider_manager.py *)

Section Providers.
Context {W : Type}.

(** [BaseLLMProvider]: the attributes every provider has and its three
    abstract methods.  A streaming call is described by its whole run: the
    chunks it yields, in order, and the exception that ends it, if any. *)
Record Provider := mkProvider {
  name : string;
  config : ProviderConfig;
  supports_streaming : bool;
  metadata : Metadata;
  generate_async : string → W → (Exn + gmap string string) * W;
  generate_stream_async : string → W → (list (gmap string string) * option Exn) * W;
  check_health : W → (Exn + HealthValue) * W
}.

(** [BaseLLMProvider.enabled] *)
Definition enabled (self : Provider) : bool :=
  default true (cfg_enabled (config self)).

(** [BaseLLMProvider.metadata] *)
Definition base_metadata (name : string) (config : ProviderConfig) : Metadata :=
  {| md_name := name;
     md_type := cfg_type config;
     md_priority := cfg_priority config;
     md_enabled := default true (cfg_enabled config);
     md_extra := ∅ |}.

(** The libraries and services the concrete providers talk to: the process
    environment, the Gemini client, the HTTP client used for Ollama, and the
    JSON decoder. *)
Record Backend := mkBackend {
  environ : gmap string string;
  genai_GenerativeModel : string → option Exn;
  generate_content_async : string → string → W → (Exn + string) * W;
  generate_content_stream : string → string → W → (list string * option Exn) * W;
  genai_list_models : string → W → (Exn + list string) * W;
  httpx_post : string → string → string → W → (Exn + option string) * W;
  httpx_stream_lines : string → string → string → W → (list string * option Exn) * W;
  httpx_get : string → W → option Exn * W;
  json_loads : string → JsonResult
}.

Context (backend : Backend).

(** [os.getenv] *)
Definition getenv (var : string) : option string := environ backend !! var.

Definition stream_chunk (token : string) : gmap string string :=
  <["token" := token]> (<["type" := "stream_chunk"]> ∅).

Definition error_chunk (provider_name : string) (e : Exn) : gmap string string :=
  <["detail" := "Error from " +:+ provider_name +:+ ": " +:+ exn_msg e]>
    (<["type" := "error"]> ∅).

Definition health (status details : string) : HealthValue :=
  HDict (<["details" := details]> (<["status" := status]> ∅)).

(** *** GeminiProvider *)

Definition Gemini_generate_async (self_name model_name prompt : string) (w : W)
  : (Exn + gmap string string) * W :=
  match generate_content_async backend model_name prompt w with
  | (inr text, w') => (inr (<["text" := text]> (<["provider" := self_name]> ∅)), w')
  | (inl e, w') => (inl e, w')
  end.

Definition Gemini_generate_stream_async (self_name model_name prompt : string) (w : W)
  : (list (gmap string string) * option Exn) * W :=
  let '((tokens, failure), w') := generate_content_stream backend model_name prompt w in
  match failure with
  | Some e => ((map stream_chunk tokens ++ [error_chunk self_name e], None), w')
  | None => ((map stream_chunk tokens, None), w')
  end.

Definition Gemini_check_health (api_key model_name : string) (w : W)
  : (Exn + HealthValue) * W :=
  if negb (nonempty api_key)
  then (inr (health "Error" "API key is not configured."), w)
  else
    match genai_list_models backend api_key w with
    | (inr models, w') =>
        if existsb (λ m, endswith m model_name) models
        then (inr (health "Active"
                ("Connected to Gemini. Model '" +:+ model_name +:+ "' is available.")), w')
        else (inr (health "Error"
                ("Connected to Gemini, but model '" +:+ model_name +:+ "' not found.")), w')
    | (inl _, w') =>
        (inr (health "Error"
           "Failed to connect to Gemini API. Check API key and network."), w')
    end.

(** [GeminiProvider.__init__] together with the methods of the instance. *)
Definition GeminiProvider (name : string) (config : ProviderConfig) : Exn + Provider :=
  let api_key_env_var := default "GEMINI_API_KEY" (cfg_api_key_env config) in
  let api_key := getenv api_key_env_var in
  if negb (truthy api_key)
  then inl (mkExn ValueError ("Missing " +:+ api_key_env_var +:+ " for " +:+ name))
  else
    let model_name := default "gemini-1.5-flash-latest" (cfg_model config) in
    match genai_GenerativeModel backend model_name with
    | Some e =>
        inl (mkExn ValueError
               ("Failed to initialize Gemini client for " +:+ name +:+ ": " +:+ exn_msg e))
    | None =>
        inr {| name := name;
               config := config;
               supports_streaming := true;
               metadata :=
                 let meta := base_metadata name config in
                 {| md_name := md_name meta; md_type := md_type meta;
                    md_priority := md_priority meta; md_enabled := md_enabled meta;
                    md_extra := <["api_key_env_var" := api_key_env_var]>
                                  (<["model" := model_name]> (md_extra meta)) |};
               generate_async := Gemini_generate_async name model_name;
               generate_stream_async := Gemini_generate_stream_async name model_name;
               check_health := Gemini_check_health (default EmptyString api_key) model_name |}
    end.

(** *** OllamaProvider *)

Definition Ollama_generate_async (self_name endpoint model_name prompt : string) (w : W)
  : (Exn + gmap string string) * W :=
  match httpx_post backend endpoint model_name prompt w with
  | (inr response_field, w') =>
      let generated_text := default EmptyString response_field in
      (inr (<["text" := strip generated_text]> (<["provider" := self_name]> ∅)), w')
  | (inl e, w') => (inl e, w')
  end.

(** The body of the [async for line in response.aiter_lines()] loop: the
    chunks yielded, and the exception that left the loop, if any. *)
Fixpoint Ollama_lines (lines : list string) : list (gmap string string) * option Exn :=
  match lines with
  | [] => ([], None)
  | line :: rest =>
      if nonempty line then
        match json_loads backend line with
        | JsonDecodeError => Ollama_lines rest
        | JsonObject chunk_data =>
            let token := default EmptyString (chunk_data !! "response") in
            if nonempty token
            then let '(chunks, raised) := Ollama_lines rest in
                 (stream_chunk token :: chunks, raised)
            else Ollama_lines rest
        | JsonOther type_name =>
            ([], Some (mkExn OtherException
                         ("'" +:+ type_name +:+ "' object has no attribute 'get'")))
        end
      else Ollama_lines rest
  end.

Definition Ollama_generate_stream_async (self_name endpoint model_name prompt : string) (w : W)
  : (list (gmap string string) * option Exn) * W :=
  let '((lines, failure), w') := httpx_stream_lines backend endpoint model_name prompt w in
  let '(chunks, raised) := Ollama_lines lines in
  match (match raised with Some e => Some e | None => failure end) with
  | Some e => ((chunks ++ [error_chunk self_name e], None), w')
  | None => ((chunks, None), w')
  end.

Definition Ollama_check_health (base_url : string) (w : W) : (Exn + HealthValue) * W :=
  if negb (nonempty base_url)
  then (inr (health "Error" "Ollama API URL is not configured."), w)
  else
    let health_check_url := rstrip_char "/" base_url +:+ "/api/tags" in
    match httpx_get backend health_check_url w with
    | (None, w') =>
        (inr (health "Active" ("Connected to Ollama at " +:+ base_url +:+ ".")), w')
    | (Some e, w') =>
        match exn_class e with
        | HttpxRequestError =>
            (inr (health "Offline"
               ("Could not connect to Ollama at " +:+ base_url
                  +:+ ". The service appears to be offline.")), w')
        | _ =>
            (inr (health "Error"
               ("Failed to connect to Ollama at " +:+ base_url +:+ ". Is it running?")), w')
        end
    end.

(** [OllamaProvider.__init__] together with the methods of the instance. *)
Definition OllamaProvider (name : string) (config : ProviderConfig) : Exn + Provider :=
  let base_url_env_var := default "OLLAMA_API_URL" (cfg_base_url_env config) in
  let base_url := getenv base_url_env_var in
  if negb (truthy base_url)
  then inl (mkExn ValueError ("Missing " +:+ base_url_env_var +:+ " for " +:+ name))
  else
    let base_url := default EmptyString base_url in
    let model_name := default "llama3" (cfg_model config) in
    let ollama_api_endpoint := rstrip_char "/" base_url +:+ "/api/generate" in
    inr {| name := name;
           config := config;
           supports_streaming := true;
           metadata :=
             let meta := base_metadata name config in
             {| md_name := md_name meta; md_type := md_type meta;
                md_priority := md_priority meta; md_enabled := md_enabled meta;
                md_extra := <["base_url" := base_url]>
                              (<["base_url_env_var" := base_url_env_var]>
                                 (<["model" := model_name]> (md_extra meta))) |};
           generate_async := Ollama_generate_async name ollama_api_endpoint model_name;
           generate_stream_async :=
             Ollama_generate_stream_async name ollama_api_endpoint model_name;
           check_health := Ollama_check_health base_url |}.

(** *** ProviderManager *)

(** [ProviderManager.PROVIDER_CLASSES] *)
Definition PROVIDER_CLASSES (provider_type : string)
  : option (string → ProviderConfig → Exn + Provider) :=
  if decide (provider_type = "gemini") then Some GeminiProvider
  else if decide (provider_type = "ollama") then Some OllamaProvider
  else None.

(** One iteration of the loop of [_load_providers] over the configured
    entries; [providers] is [self.providers]. *)
Definition load_entry (providers : list (string * Provider)) (entry : ConfigEntry)
  : list (string * Provider) :=
  match entry with
  | EntryOther => providers
  | EntryDict provider_config_entry =>
      let provider_instance_name := cfg_name provider_config_entry in
      let provider_type := cfg_type provider_config_entry in
      if negb (truthy provider_instance_name) || negb (truthy provider_type)
      then providers
      else if default true (cfg_enabled provider_config_entry)
      then
        match PROVIDER_CLASSES (default EmptyString provider_type) with
        | Some provider_class =>
            match provider_class (default EmptyString provider_instance_name) provider_config_entry with
            | inr instance => dict_set (default EmptyString provider_instance_name) instance providers
            | inl _ => providers
            end
        | None => providers
        end
      else providers
  end.

(** [ProviderManager._load_providers], from the outcome of reading
    [config/providers.yaml] to [self.providers]. *)
Definition _load_providers (file : YamlFile (option (gmap string ProvidersValue)))
  : list (string * Provider) :=
  match file with
  | FileParsed (Some config) =>
      match config !! "providers" with
      | Some (PVList entries) => foldl load_entry [] entries
      | Some PVOther => []
      | None => []
      end
  | FileParsed None => []
  | FileMissing => []
  | FileUnreadable _ => []
  end.

(** [ProviderManager.get_provider] *)
Definition get_provider (providers : list (string * Provider)) (name : string)
  : option Provider :=
  dict_get name providers.

End Providers.

Arguments Provider : clear implicits.
Arguments Backend : clear implicits.

(** ** core/model_router.py *)

(** One record of the [providers] list of the health report. *)
Record StatusRecord := mkStatusRecord {
  sr_name : string;
  sr_status : string;
  sr_details : string;
  sr_timestamp : string;
  sr_metadata : Metadata
}.

Record Summary := mkSummary {
  total_providers : nat;
  sm_enabled : nat;
  sm_disabled : nat;
  sm_errors : nat
}.

Record HealthReport := mkHealthReport {
  summary : Summary;
  providers : list StatusRecord
}.

(** [ModelRouter._load_routing_rules], from the outcome of reading
    [config/routing.yaml] to [self.routing_rules]. *)
Definition _load_routing_rules
    (file : YamlFile (option (gmap string (gmap string (list string)))))
  : gmap string (list string) :=
  let default_rules : gmap string (list string) :=
    <["__default__" := ["gemini-primary"; "ollama-failover"]]> ∅ in
  match file with
  | FileParsed (Some config) =>
      match config !! "routing_rules" with
      | Some rules => rules
      | None => default_rules
      end
  | FileParsed None => default_rules
  | FileMissing => default_rules
  | FileUnreadable _ => default_rules
  end.

(** [self.routing_rules.get(task_type, self.routing_rules.get("__default__"))] *)
Definition resolve (routing_rules : gmap string (list string)) (task_type : string)
  : option (list string) :=
  match routing_rules !! task_type with
  | Some provider_sequence => Some provider_sequence
  | None => routing_rules !! "__default__"
  end.

Section ModelRouter.
Context {W : Type}.

(** [self.routing_rules], [provider_manager.providers], the cached
    [get_system_context()] and the clock behind [datetime.now]. *)
Context (routing_rules : gmap string (list string)).
Context (registry : list (string * Provider W)).
Context (system_context : SystemContext.t).
Context (utcnow : W → string).

(** [get_system_context().get_system_prompt(prompt)] *)
Definition get_system_prompt (prompt : string) : M W string :=
  let* _ := emit [EvGetSystemPrompt prompt] in
  ret (SystemContext.get_system_prompt system_context prompt).

Definition unroutable (task_type : string) : Exn :=
  mkExn ValueError ("Task type '" +:+ task_type +:+ "' is not a routable LLM task.").

(** [providers_to_try] of [route_request] *)
Definition providers_to_try (provider_sequence : list string) : list (Provider W) :=
  omap (λ n, match get_provider registry n with
             | Some p => if enabled p then Some p else None
             | None => None
             end) provider_sequence.

(** [providers_to_try] of [route_request_stream] *)
Definition providers_to_try_stream (provider_sequence : list string) : list (Provider W) :=
  omap (λ n, match get_provider registry n with
             | Some p => if enabled p && supports_streaming p then Some p else None
             | None => None
             end) provider_sequence.

(** The [for provider in providers_to_try] loop of [route_request], with the
    [raise] that follows it. *)
Fixpoint failover (prompt : string) (providers_to_try : list (Provider W))
    (errors : list string) : M W (gmap string string) :=
  match providers_to_try with
  | [] =>
      raise (mkExn NoAvailableProviderError
               ("All providers failed. Errors: " +:+ join "; " errors))
  | provider :: rest =>
      try_except
        (let* full_prompt := get_system_prompt prompt in
         let* response := call (EvGenerate (name provider) full_prompt)
                               (generate_async provider full_prompt) in
         ret (<["provider" := name provider]> response))
        (λ e, failover prompt rest (errors ++ [name provider +:+ ": " +:+ exn_msg e]))
  end.

(** [ModelRouter.route_request] from the [if not provider_sequence] test on. *)
Definition route_sequence (provider_sequence : option (list string))
    (prompt task_type : string) : M W (gmap string string) :=
  match provider_sequence with
  | None => raise (unroutable task_type)
  | Some [] => raise (unroutable task_type)
  | Some provider_sequence =>
      match providers_to_try provider_sequence with
      | [] =>
          raise (mkExn NoAvailableProviderError
            "No enabled LLM providers found in configuration for the requested task.")
      | candidates => failover prompt candidates []
      end
  end.

(** [ModelRouter.route_request] *)
Definition route_request (prompt task_type : string) : M W (gmap string string) :=
  route_sequence (resolve routing_rules task_type) prompt task_type.

(** [async for chunk in provider.generate_stream_async(prompt=full_prompt)]
    with its body: every chunk is copied, tagged with the provider and handed
    to the consumer; an exception that ends the provider's stream comes out
    of the loop. *)
Definition forward_stream (provider : Provider W) (full_prompt : string) : M W unit := λ st,
  let '((chunks, failure), w') := generate_stream_async provider full_prompt (world st) in
  let st' :=
    mkState w'
      (trace st ++ EvStream (name provider) full_prompt
         :: map (λ chunk, EvYield (<["provider" := name provider]> chunk)) chunks) in
  match failure with
  | Some e => (inl e, st')
  | None => (inr tt, st')
  end.

(** The [for provider in providers_to_try] loop of [route_request_stream],
    with the [raise] that follows it. *)
Fixpoint failover_stream (prompt : string) (providers_to_try : list (Provider W))
    (errors : list string) : M W unit :=
  match providers_to_try with
  | [] =>
      raise (mkExn NoAvailableProviderError
               ("All streaming providers failed. Errors: " +:+ join "; " errors))
  | provider :: rest =>
      try_except
        (let* full_prompt := get_system_prompt prompt in
         forward_stream provider full_prompt)
        (λ e, failover_stream prompt rest
                (errors ++ [name provider +:+ ": " +:+ exn_msg e]))
  end.

(** [ModelRouter.route_request_stream], run by a consumer that reads the
    stream to its end. *)
Definition route_request_stream (prompt task_type : string) : M W unit :=
  match resolve routing_rules task_type with
  | None => raise (unroutable task_type)
  | Some [] => raise (unroutable task_type)
  | Some provider_sequence =>
      match providers_to_try_stream provider_sequence with
      | [] =>
          raise (mkExn NoAvailableProviderError
            "No enabled, streaming-capable LLM providers found.")
      | candidates => failover_stream prompt candidates []
      end
  end.

(** [datetime.now(timezone.utc).isoformat()] *)
Definition now : M W string := λ st, (inr (utcnow (world st)), st).

(** [safe_check] of [get_provider_statuses] *)
Definition safe_check (provider : Provider W) : M W HealthValue :=
  try_except
    (call (EvCheckHealth (name provider)) (check_health provider))
    (λ e, ret (HException e)).

(** [asyncio.gather] over the [safe_check] tasks of the enabled providers;
    the results come back in the order of the tasks. *)
Fixpoint gather (enabled_providers : list (Provider W)) : M W (list HealthValue) :=
  match enabled_providers with
  | [] => ret []
  | p :: ps =>
      let* result := safe_check p in
      let* results := gather ps in
      ret (result :: results)
  end.

(** The record built for an enabled provider from the result of its probe. *)
Definition enabled_record (provider : Provider W) (result : HealthValue)
    (timestamp : string) : StatusRecord :=
  let status_record :=
    {| sr_name := name provider;
       sr_status := "Unknown";
       sr_details := "Health check did not return a valid status.";
       sr_timestamp := timestamp;
       sr_metadata := metadata provider |} in
  match result with
  | HException e =>
      {| sr_name := sr_name status_record;
         sr_status := "Error";
         sr_details := "Health check failed: " +:+ exn_msg e;
         sr_timestamp := sr_timestamp status_record;
         sr_metadata := sr_metadata status_record |}
  | HDict d =>
      {| sr_name := sr_name status_record;
         sr_status := default "Unknown" (d !! "status");
         sr_details := default EmptyString (d !! "details");
         sr_timestamp := sr_timestamp status_record;
         sr_metadata := sr_metadata status_record |}
  | HOther => status_record
  end.

Definition disabled_record (provider : Provider W) (timestamp : string) : StatusRecord :=
  {| sr_name := name provider;
     sr_status := "Disabled";
     sr_details := "Provider is disabled in configuration.";
     sr_timestamp := timestamp;
     sr_metadata := metadata provider |}.

(** [for i, provider in enumerate(enabled_providers): result = results[i] ...] *)
Fixpoint process_results (enabled_providers : list (Provider W)) (results : list HealthValue)
  : M W (list StatusRecord) :=
  match enabled_providers with
  | [] => ret []
  | provider :: ps =>
      match results with
      | [] => raise (mkExn OtherException "list index out of range")
      | result :: rs =>
          let* timestamp := now in
          let* records := process_results ps rs in
          ret (enabled_record provider result timestamp :: records)
      end
  end.

Fixpoint disabled_records (disabled_providers : list (Provider W)) : M W (list StatusRecord) :=
  match disabled_providers with
  | [] => ret []
  | provider :: ps =>
      let* timestamp := now in
      let* records := disabled_records ps in
      ret (disabled_record provider timestamp :: records)
  end.

Definition is_error (s : StatusRecord) : bool := String.eqb (sr_status s) "Error".

(** [ModelRouter.get_provider_statuses] *)
Definition get_provider_statuses : M W HealthReport :=
  let enabled_providers := List.filter enabled (dict_values registry) in
  let disabled_providers := List.filter (λ p, negb (enabled p)) (dict_values registry) in
  let* checked :=
    match enabled_providers with
    | [] => ret []
    | _ :: _ =>
        let* results := gather enabled_providers in
        process_results enabled_providers results
    end in
  let* skipped := disabled_records disabled_providers in
  let provider_statuses := checked ++ skipped in
  ret {| summary :=
           {| total_providers := length registry;
              sm_enabled := length enabled_providers;
              sm_disabled := length disabled_providers;
              sm_errors := length (List.filter is_error provider_statuses) |};
         providers := provider_statuses |}.

End ModelRouter.

(** ** Runs of the failover loops and of the probes *)

Section Runs.
Context {W : Type}.

(** The calls one blocking attempt makes. *)
Definition attempt_events (prompt full_prompt : string) (ps : list (Provider W))
  : list Event :=
  flat_map (λ p, [EvGetSystemPrompt prompt; EvGenerate (name p) full_prompt]) ps.

(** Every provider of [ps], called in turn from world [w], fails: the
    exceptions raised, in order, and the world left behind. *)
Fixpoint failures (full_prompt : string) (ps : list (Provider W)) (w : W)
  : option (list Exn * W) :=
  match ps with
  | [] => Some ([], w)
  | p :: ps' =>
      match generate_async p full_prompt w with
      | (inl e, w') =>
          match failures full_prompt ps' w' with
          | Some (es, w'') => Some (e :: es, w'')
          | None => None
          end
      | (inr _, _) => None
      end
  end.

(** The entries of the [errors] list, one per failed attempt. *)
Definition reasons (ps : list (Provider W)) (es : list Exn) : list string :=
  zip_with (λ p e, name p +:+ ": " +:+ exn_msg e) ps es.

(** The calls and the chunks of one streaming attempt. *)
Definition stream_attempt (prompt full_prompt : string)
    (run : Provider W * list (gmap string string)) : list Event :=
  EvGetSystemPrompt prompt :: EvStream (name run.1) full_prompt
    :: map (λ chunk, EvYield (<["provider" := name run.1]> chunk)) run.2.

Definition stream_events (prompt full_prompt : string)
    (runs : list (Provider W * list (gmap string string))) : list Event :=
  flat_map (stream_attempt prompt full_prompt) runs.

(** The stream of every provider of [ps], consumed in turn from world [w],
    ends by raising: per provider the chunks it yielded before and the
    exception, and the world left behind. *)
Fixpoint stream_failures (full_prompt : string) (ps : list (Provider W)) (w : W)
  : option (list (list (gmap string string) * Exn) * W) :=
  match ps with
  | [] => Some ([], w)
  | p :: ps' =>
      match generate_stream_async p full_prompt w with
      | ((chunks, Some e), w') =>
          match stream_failures full_prompt ps' w' with
          | Some (rs, w'') => Some ((chunks, e) :: rs, w'')
          | None => None
          end
      | ((_, None), _) => None
      end
  end.

(** What each probe does when the providers of [ps] are probed in turn from
    world [w], and the world left behind. *)
Fixpoint probe_outcomes (ps : list (Provider W)) (w : W)
  : list (Exn + HealthValue) * W :=
  match ps with
  | [] => ([], w)
  | p :: ps' =>
      let '(o, w1) := check_health p w in
      let '(os, w2) := probe_outcomes ps' w1 in
      (o :: os, w2)
  end.

(** What [safe_check] makes of the outcome of a probe. *)
Definition settled (o : Exn + HealthValue) : HealthValue :=
  match o with
  | inl e => HException e
  | inr v => v
  end.

(** The entries of the [errors] list of the streaming loop. *)
Definition stream_reasons (ps : list (Provider W))
    (rs : list (list (gmap string string) * Exn)) : list string :=
  zip_with (λ p r, name p +:+ ": " +:+ exn_msg r.2) ps rs.

(** The records of a health report, from what the probes did when run from
    world [w]. *)
Definition records_of (utcnow : W → string) (reg : list (string * Provider W)) (w : W)
  : list StatusRecord :=
  let enabled_providers := List.filter enabled (dict_values reg) in
  let disabled_providers := List.filter (λ p, negb (enabled p)) (dict_values reg) in
  let outcomes := probe_outcomes enabled_providers w in
  zip_with (λ p o, enabled_record p (settled o) (utcnow outcomes.2))
           enabled_providers outcomes.1
    ++ map (λ p, disabled_record p (utcnow outcomes.2)) disabled_providers.

(** The probe of the provider answers with a dictionary whose status is
    [Active], [Offline] or [Error]. *)
Definition probe_in_domain (p : Provider W) : Prop :=
  ∀ w, ∃ s d w',
    check_health p w = (inr (health s d), w') ∧ s ∈ ["Active"; "Offline"; "Error"].

Definition stream_never_raises (p : Provider W) : Prop :=
  ∀ prompt w, (generate_stream_async p prompt w).1.2 = None.

(** What holds of every entry of a registry filled by [_load_providers]. *)
Definition loaded_ok (kv : string * Provider W) : Prop :=
  name kv.2 = kv.1 ∧ enabled kv.2 = true
  ∧ probe_in_domain kv.2 ∧ stream_never_raises kv.2.

(** The exception that interrupts an Ollama stream, if any: the one raised
    while a line is handled, else the one raised by the transport. *)
Definition Ollama_failure (backend : Backend W) (endpoint model_name prompt : string)
    (w : W) : option Exn :=
  let run := (httpx_stream_lines backend endpoint model_name prompt w).1 in
  match (Ollama_lines backend run.1).2 with
  | Some e => Some e
  | None => run.2
  end.

(** The providers whose registry key is their own name, as every registry
    filled by [_load_providers] is. *)
Definition keyed_by_name (registry : list (string * Provider W)) : Prop :=
  Forall (λ kv, name kv.2 = kv.1) registry.

End Runs.

(** The closed status domain of the specification. *)
Definition status_domain : list string :=
  ["Active"; "Offline"; "Error"; "Disabled"; "Unknown"].

(** No streaming attempt starts after a chunk has been handed to the
    consumer. *)
Definition no_attempt_after_yield (t : list Event) : Prop :=
  ∀ i j chunk n q,
    t !! i = Some (EvYield chunk) → t !! j = Some (EvStream n q) → j < i.

(** The hook was called exactly once. *)
Definition hook_called_once (t : list Event) : Prop := hook_calls t = 1.

(** The [type] field of a chunk. *)
Definition tagged (ty : string) (c : gmap string string) : Prop :=
  c !! "type" = Some ty.

(** ** Stub providers and sample configurations *)

Definition stub_config (n : string) (is_enabled : option bool) : ProviderConfig :=
  {| cfg_name := Some n; cfg_type := Some "stub"; cfg_enabled := is_enabled;
     cfg_priority := None; cfg_model := None;
     cfg_api_key_env := None; cfg_base_url_env := None |}.

(** A provider over a world without state whose three methods always behave
    the same way. *)
Definition stub (n : string) (is_enabled : option bool)
    (generated : Exn + gmap string string)
    (streamed : list (gmap string string) * option Exn)
    (probed : Exn + HealthValue) : Provider unit :=
  {| name := n;
     config := stub_config n is_enabled;
     supports_streaming := true;
     metadata := base_metadata n (stub_config n is_enabled);
     generate_async := λ _ w, (generated, w);
     generate_stream_async := λ _ w, (streamed, w);
     check_health := λ w, (probed, w) |}.

Definition boom (msg : string) : Exn := mkExn OtherException msg.

Definition answer (who text : string) : gmap string string :=
  <["text" := text]> (<["provider" := who]> ∅).

Definition no_context : SystemContext.t := SystemContext.mk ∅.

Definition start : State unit := mkState tt [].

Definition epoch (_ : unit) : string := "1970-01-01T00:00:00+00:00".

Definition sample_rules : gmap string (list string) :=
  <["summarize" := ["p1"; "p2"]]> (<["__default__" := ["p2"]]> ∅).

(** [p1_failing] fails in every call, its stream before any chunk. *)
Definition p1_failing : Provider unit :=
  stub "p1" None (inl (boom "quota exceeded"))
       ([], Some (boom "connection refused")) (inl (boom "probe crashed")).

(** [p2_ok] answers, naming another provider in its own response. *)
Definition p2_ok : Provider unit :=
  stub "p2" None (inr (answer "someone-else" "OK"))
       ([stream_chunk "O"; stream_chunk "K"], None) (inr (health "Active" "fine")).

Definition p2_failing : Provider unit :=
  stub "p2" None (inl (boom "timeout")) ([], Some (boom "timeout")) (inl (boom "timeout")).

(** [p1_midstream] yields one chunk and then raises. *)
Definition p1_midstream : Provider unit :=
  stub "p1" None (inl (boom "quota exceeded"))
       ([stream_chunk "Hel"], Some (boom "connection reset"))
       (inr (health "Active" "fine")).

(** The probe of [p1_degraded] reports a status of its own. *)
Definition p1_degraded : Provider unit :=
  stub "p1" None (inr (answer "p1" "OK")) ([], None) (inr (health "Degraded" "slow")).

(** The probe of [p3_crashing] raises. *)
Definition p3_crashing : Provider unit :=
  stub "p3" None (inr (answer "p3" "OK")) ([], None) (inl (boom "probe crashed")).

(** Three enabled providers, the probe of the last one raising. *)
Definition two_healthy_one_crashing : list (string * Provider unit) :=
  [("p1", p1_midstream); ("p2", p2_ok); ("p3", p3_crashing)].

Definition failing_then_ok : list (string * Provider unit) :=
  [("p1", p1_failing); ("p2", p2_ok)].

Definition both_failing : list (string * Provider unit) :=
  [("p1", p1_failing); ("p2", p2_failing)].

Definition raising_midstream : list (string * Provider unit) :=
  [("p1", p1_midstream); ("p2", p2_ok)].

Definition odd_status : list (string * Provider unit) :=
  [("p1", p1_degraded)].

(** A backend in which every service answers. *)
Definition quiet_backend : Backend unit :=
  {| environ := <["GEMINI_API_KEY" := "secret"]>
                  (<["OLLAMA_API_URL" := "http://localhost:11434"]> ∅);
     genai_GenerativeModel := λ _, None;
     generate_content_async := λ _ _ w, (inr "OK", w);
     generate_content_stream := λ _ _ w, (([], None), w);
     genai_list_models := λ _ w, (inr ["models/gemini-1.5-flash-latest"], w);
     httpx_post := λ _ _ _ w, (inr (Some "OK"), w);
     httpx_stream_lines := λ _ _ _ w, (([], None), w);
     httpx_get := λ _ w, (None, w);
     json_loads := λ _, JsonDecodeError |}.

(** A [providers.yaml] with one enabled and one disabled provider. *)
Definition sample_providers_yaml : YamlFile (option (gmap string ProvidersValue)) :=
  FileParsed (Some (<["providers" :=
    PVList
      [EntryDict {| cfg_name := Some "gemini-primary"; cfg_type := Some "gemini";
                    cfg_enabled := Some true; cfg_priority := Some 1%Z;
                    cfg_model := None; cfg_api_key_env := None;
                    cfg_base_url_env := None |};
       EntryDict {| cfg_name := Some "ollama-failover"; cfg_type := Some "ollama";
                    cfg_enabled := Some false; cfg_priority := Some 2%Z;
                    cfg_model := None; cfg_api_key_env := None;
                    cfg_base_url_env := None |}]]> ∅)).

(** ** More of core/model_router.py and core/provider_manager.py *)

(** [self.routable_tasks], as [ModelRouter.__init__] computes it from the
    rules: the keys, without the reserved one. *)
Definition routable_tasks (routing_rules : gmap string (list string)) : gset string :=
  dom routing_rules ∖ {["__default__"]}.

(** What one entry of the [providers] list adds to [self.providers] in
    [_load_providers]: the key and the instance, or nothing. *)
Definition instantiate {W} (backend : Backend W) (entry : ConfigEntry)
  : option (string * Provider W) :=
  match entry with
  | EntryOther => None
  | EntryDict c =>
      if negb (truthy (cfg_name c)) || negb (truthy (cfg_type c)) then None
      else if default true (cfg_enabled c)
      then
        match PROVIDER_CLASSES backend (default EmptyString (cfg_type c)) with
        | Some provider_class =>
            match provider_class (default EmptyString (cfg_name c)) c with
            | inr instance => Some (default EmptyString (cfg_name c), instance)
            | inl _ => None
            end
        | None => None
        end
      else None
  end.

(** The entries of a parsed [providers.yaml], when it has a [providers]
    list; the files in which [_load_providers] finds nothing to load have
    none. *)
Definition configured_entries (file : YamlFile (option (gmap string ProvidersValue)))
  : option (list ConfigEntry) :=
  match file with
  | FileParsed (Some config) =>
      match config !! "providers" with
      | Some (PVList entries) => Some entries
      | _ => None
      end
  | _ => None
  end.

(** The chunks handed to the consumer, in order. *)
Definition yielded (t : list Event) : list (gmap string string) :=
  omap (λ ev, match ev with EvYield chunk => Some chunk | _ => None end) t.

(** The providers called for a stream, in order. *)
Definition streamed (t : list Event) : list string :=
  omap (λ ev, match ev with EvStream n _ => Some n | _ => None end) t.

(** ** config/credentials_manager.py *)

(** One iteration of the loop of [get_required_credentials_from_config]. *)
Definition required_of_entry (required_vars : list (string * string)) (entry : ConfigEntry)
  : list (string * string) :=
  match entry with
  | EntryOther => required_vars
  | EntryDict provider_config =>
      let api_key_env := cfg_api_key_env provider_config in
      let required_vars :=
        if truthy api_key_env
        then dict_set (default EmptyString api_key_env) "API Key" required_vars
        else required_vars in
      let base_url_env := cfg_base_url_env provider_config in
      if truthy base_url_env
      then dict_set (default EmptyString base_url_env) "Base URL" required_vars
      else required_vars
  end.

(** [get_required_credentials_from_config], from the outcome of reading
    [config/providers.yaml]. *)
Definition get_required_credentials_from_config
    (file : YamlFile (option (gmap string ProvidersValue))) : list (string * string) :=
  match file with
  | FileParsed (Some config) =>
      match config !! "providers" with
      | Some (PVList entries) => foldl required_of_entry [] entries
      | Some PVOther => []
      | None => []
      end
  | FileParsed None => []
  | FileMissing => []
  | FileUnreadable _ => []
  end.

(** [get_missing_provider_credentials], in the process environment
    [environ]. *)
Definition get_missing_provider_credentials (environ : gmap string string)
    (file : YamlFile (option (gmap string ProvidersValue))) : list string :=
  List.filter (λ var, negb (truthy (environ !! var)))
              (map fst (get_required_credentials_from_config file)).

(** ** api/server.py *)

Record ProcessRequest := mkProcessRequest {
  rq_task_type : string;
  rq_prompt : string;
  rq_extra : gmap string string
}.

Record ProcessResponse := mkProcessResponse {
  rs_status : string;
  rs_result : option (gmap string string);
  rs_message : option string;
  rs_details : option string;
  rs_request_id : string
}.

(** What an endpoint does: it returns a value or raises [HTTPException]. *)
Inductive Reply (A : Type) :=
  | Returned (a : A)
  | HTTPException (status_code : nat) (detail : string).
Arguments Returned {A} a.
Arguments HTTPException {A} status_code detail.

(** The arguments of one call of [log_interaction]. *)
Record Interaction := mkInteraction {
  ia_request_id : string;
  ia_task_type : string;
  ia_status : string;
  ia_latency_ms : Z;
  ia_provider : option string;
  ia_api_key : option string;
  ia_prompt : string;
  ia_response_data : option (gmap string string)
}.

(** What the skill path of [process_task] leaves behind: the reply and the
    values of [status], [provider] and [response_data] when [finally] runs. *)
Record SkillRun := mkSkillRun {
  sk_reply : Reply ProcessResponse;
  sk_status : string;
  sk_provider : option string;
  sk_response_data : option (gmap string string)
}.

(** What a WebSocket handler does to its connection. *)
Inductive WsEvent :=
  | WsAccept
  | WsClose (code : nat) (reason : string)
  | WsSendJson (message : gmap string string).

(** What [websocket.receive_json()] followed by the construction of the
    [ProcessRequest] gives: a request, [WebSocketDisconnect], or another
    exception. *)
Inductive Received :=
  | Payload (request : ProcessRequest)
  | Disconnected
  | Rejected (e : Exn).

Section Server.
Context {W : Type}.

(** The router and the registry behind the endpoints, and the collaborators
    of [api/server.py] that are not part of the sources at hand: the
    generator of request ids, the clock of the latency measurement, and the
    skill path, which needs [core.skill_manager]. *)
Context (routing_rules : gmap string (list string)).
Context (registry : list (string * Provider W)).
Context (system_context : SystemContext.t).
Context (utcnow : W → string).
Context (uuid4 : W → string).
Context (latency_ms : W → W → Z).
Context (skill_path : ProcessRequest → string → W → SkillRun * W).

(** The router's state and the interactions written to the audit log. *)
Record ServerState := mkServerState {
  router : State W;
  audit_log : list Interaction
}.

(** [process_task]: the LLM path in full; [finally] writes the audit record
    whatever the reply is. *)
Definition process_task (request : ProcessRequest) (sst : ServerState)
  : Reply ProcessResponse * ServerState :=
  let st := router sst in
  let request_id := uuid4 (world st) in
  let start_time := world st in
  let '(reply, status, provider, response_data, st') :=
    match routing_rules !! rq_task_type request with
    | Some _ =>
        match route_request routing_rules registry system_context
                (rq_prompt request) (rq_task_type request) st with
        | (inr llm_result, st') =>
            let provider := default "unknown" (llm_result !! "provider") in
            (Returned {| rs_status := "success";
                         rs_result := Some llm_result;
                         rs_message := Some ("Request routed via " +:+ provider);
                         rs_details := None;
                         rs_request_id := request_id |},
             "success", Some provider, Some llm_result, st')
        | (inl e, st') =>
            match exn_class e with
            | NoAvailableProviderError =>
                (HTTPException 503 "All LLM providers are currently unavailable.",
                 "error", Some "failover_exhausted", Some ∅, st')
            | _ =>
                (HTTPException 500 "An unexpected error occurred during LLM routing.",
                 "error", None, Some ∅, st')
            end
        end
    | None =>
        let '(run, w') := skill_path request request_id (world st) in
        (sk_reply run, sk_status run, sk_provider run, sk_response_data run,
         mkState w' (trace st))
    end in
  (reply,
   {| router := st';
      audit_log :=
        audit_log sst
          ++ [{| ia_request_id := request_id;
                 ia_task_type := rq_task_type request;
                 ia_status := status;
                 ia_latency_ms := latency_ms start_time (world st');
                 ia_provider := provider;
                 ia_api_key := None;
                 ia_prompt := rq_prompt request;
                 ia_response_data := response_data |}] |}).

Definition ws_error (e : Exn) : gmap string string :=
  <["detail" := "An unexpected error occurred: " +:+ exn_msg e]>
    (<["type" := "error"]> ∅).

Definition stream_end (request_id : string) : gmap string string :=
  <["request_id" := request_id]> (<["type" := "stream_end"]> ∅).

(** [process_task_stream], for a client that stays connected while chunks
    are sent: [auth] is the detail of the [HTTPException] that
    [validate_api_key] raised, if it did, and [received] is the first
    message of the client. *)
Definition process_task_stream (auth : option string) (received : Received)
    (st : State W) : list WsEvent * State W :=
  match auth with
  | Some detail =>
      ([WsAccept; WsClose 4001 ("Authentication failed: " +:+ detail)], st)
  | None =>
      let request_id := uuid4 (world st) in
      match received with
      | Disconnected => ([WsAccept], st)
      | Rejected e => ([WsAccept; WsSendJson (ws_error e)], st)
      | Payload request =>
          match routing_rules !! rq_task_type request with
          | None =>
              ([WsAccept;
                WsSendJson
                  (ws_error
                     (mkExn ValueError
                        ("Task type '" +:+ rq_task_type request
                           +:+ "' is not a routable LLM task or does not support streaming.")))],
               st)
          | Some _ =>
              let '(outcome, st') :=
                route_request_stream routing_rules registry system_context
                  (rq_prompt request) (rq_task_type request)
                  (mkState (world st) []) in
              (WsAccept :: map WsSendJson (yielded (trace st'))
                 ++ [WsSendJson
                       match outcome with
                       | inr _ => stream_end request_id
                       | inl e => ws_error e
                       end],
               mkState (world st') (trace st ++ trace st'))
          end
      end
  end.

(** [get_system_status]; the report is returned under [providers_status]. *)
Definition get_system_status (st : State W) : Reply HealthReport * State W :=
  match get_provider_statuses registry utcnow st with
  | (inr provider_statuses, st') => (Returned provider_statuses, st')
  | (inl _, st') => (HTTPException 500 "Could not retrieve system status.", st')
  end.

End Server.

Arguments ServerState : clear implicits.

(** The rules table found in a parsed [routing.yaml], when it has one; in
    all other cases [_load_routing_rules] falls back on its built-in
    table. *)
Definition configured_rules
    (file : YamlFile (option (gmap string (gmap string (list string)))))
  : option (gmap string (list string)) :=
  match file with
  | FileParsed (Some config) => config !! "routing_rules"
  | _ => None
  end.

(** The names of a sequence that [route_request] can use: registered and
    enabled. *)
Definition usable {W} (registry : list (string * Provider W)) (n : string) : bool :=
  match get_provider registry n with
  | Some p => enabled p
  | None => false
  end.


(** The chunks of a run come from the stream of its provider, one of [ps]. *)
Definition run_of {W} (full : string) (ps : list (Provider W))
    (run : Provider W * list (gmap string string)) : Prop :=
  run.1 ∈ ps ∧ ∃ w, run.2 = (generate_stream_async run.1 full w).1.1.

(** ** api/v1/webhooks/paddle_webhook_router.py *)

(** [s.split(sep)] for a separator of one character. *)
Fixpoint str_split (sep : ascii) (s : string) : list string :=
  match s with
  | EmptyString => [EmptyString]
  | String a s' =>
      if Ascii.eqb a sep then EmptyString :: str_split sep s'
      else match str_split sep s' with
           | x :: xs => String a x :: xs
           | [] => [String a EmptyString]
           end
  end.

(** The dictionary comprehension over the parts of the header: each part
    gives the key before its first [=] and the value after it; a part
    without [=] raises [IndexError], which is [None] here; a key that comes
    again replaces the earlier value. *)
Fixpoint signature_parts (ps : list string) (parts : gmap string string)
  : option (gmap string string) :=
  match ps with
  | [] => Some parts
  | p :: ps' =>
      match str_split "=" p with
      | k :: v :: _ => signature_parts ps' (<[k := v]> parts)
      | _ => None
      end
  end.

(** Whether [hmac.compare_digest] takes the string: only ASCII characters. *)
Definition is_ascii (s : string) : bool :=
  forallb (λ a, Ascii.nat_of_ascii a <? 128) (String.list_ascii_of_string s).

(** [verify_webhook_signature]: [secret] is [PADDLE_WEBHOOK_SIGNING_SECRET],
    [paddle_signature] the header, [raw_body] the decoded body of the request
    or the exception raised on the way to it, and [hmac_sha256] the
    hexadecimal digest of [hmac.new(key, message, hashlib.sha256)]. *)
Definition verify_webhook_signature (hmac_sha256 : string → string → string)
    (secret paddle_signature : option string) (raw_body : Exn + string) : Reply () :=
  if negb (truthy secret)
  then HTTPException 500 "Webhook processing misconfigured."
  else if negb (truthy paddle_signature)
  then HTTPException 401 "Missing webhook signature."
  else
    match signature_parts (str_split ";" (default EmptyString paddle_signature)) ∅ with
    | None => HTTPException 400 "Error verifying webhook signature."
    | Some parts =>
        let ts := parts !! "ts" in
        let h1 := parts !! "h1" in
        if negb (truthy ts) || negb (truthy h1)
        then HTTPException 400 "Malformed Paddle-Signature header."
        else
          match raw_body with
          | inl _ => HTTPException 400 "Error verifying webhook signature."
          | inr body =>
              let signed_payload := default EmptyString ts +:+ ":" +:+ body in
              let expected_signature :=
                hmac_sha256 (default EmptyString secret) signed_payload in
              if is_ascii expected_signature && is_ascii (default EmptyString h1)
              then
                if String.eqb expected_signature (default EmptyString h1)
                then Returned ()
                else HTTPException 403 "Invalid webhook signature."
              else HTTPException 400 "Error verifying webhook signature."
          end
    end.

(** ** More sample configurations *)

(** The rules in force when [routing.yaml] is missing. *)
Definition built_in_rules : gmap string (list string) := _load_routing_rules FileMissing.

(** The registry loaded from the sample [providers.yaml]. *)
Definition sample_registry : list (string * Provider unit) :=
  _load_providers quiet_backend sample_providers_yaml.

(** An entry whose credential is not in the environment. *)
Definition entry_without_key : ConfigEntry :=
  EntryDict {| cfg_name := Some "gemini-backup"; cfg_type := Some "gemini";
               cfg_enabled := None; cfg_priority := None; cfg_model := None;
               cfg_api_key_env := Some "BACKUP_API_KEY";
               cfg_base_url_env := None |}.

Definition entry_gemini_primary : ConfigEntry :=
  EntryDict {| cfg_name := Some "gemini-primary"; cfg_type := Some "gemini";
               cfg_enabled := Some true; cfg_priority := Some 1%Z;
               cfg_model := None; cfg_api_key_env := None;
               cfg_base_url_env := None |}.

(** A backend whose Gemini stream breaks after one token. *)
Definition flaky_backend : Backend unit :=
  {| environ := <["GEMINI_API_KEY" := "secret"]>
                  (<["OLLAMA_API_URL" := "http://localhost:11434"]> ∅);
     genai_GenerativeModel := λ _, None;
     generate_content_async := λ _ _ w, (inl (boom "quota exceeded"), w);
     generate_content_stream := λ _ _ w, ((["Hel"], Some (boom "connection reset")), w);
     genai_list_models := λ _ w, (inl (boom "unreachable"), w);
     httpx_post := λ _ _ _ w, (inr (Some "OK"), w);
     httpx_stream_lines := λ _ _ _ w, (([], None), w);
     httpx_get := λ _ w, (None, w);
     json_loads := λ _, JsonDecodeError |}.

Definition entry_ollama_failover : ConfigEntry :=
  EntryDict {| cfg_name := Some "ollama-failover"; cfg_type := Some "ollama";
               cfg_enabled := None; cfg_priority := Some 2%Z;
               cfg_model := None; cfg_api_key_env := None;
               cfg_base_url_env := Some "OLLAMA_API_URL" |}.

(** A [providers.yaml] with both providers enabled. *)
Definition both_enabled_yaml : YamlFile (option (gmap string ProvidersValue)) :=
  FileParsed (Some (<["providers" :=
    PVList [entry_gemini_primary; entry_ollama_failover]]> ∅)).

Definition flaky_registry : list (string * Provider unit) :=
  _load_providers flaky_backend both_enabled_yaml.

Definition fixed_uuid (_ : unit) : string := "req-1".

Definition no_latency (_ _ : unit) : Z := 0%Z.

(** A skill path that finds no skill. *)
Definition no_skill (request : ProcessRequest) (request_id : string) (w : unit)
  : SkillRun * unit :=
  ({| sk_reply := HTTPException 404
                    ("Skill or LLM route '" +:+ rq_task_type request +:+ "' not found.");
      sk_status := "error"; sk_provider := None; sk_response_data := Some ∅ |}, w).

Definition summarize_request : ProcessRequest :=
  {| rq_task_type := "summarize"; rq_prompt := "hi"; rq_extra := ∅ |}.

Definition chat_request : ProcessRequest :=
  {| rq_task_type := "__default__"; rq_prompt := "hi"; rq_extra := ∅ |}.

(** A digest function that ignores its arguments. *)
Definition fixed_digest (_ _ : string) : string := "0a1b2c".

(** * Properties *)

(** ** The blocking failover loop *)

Section Failover.
Context {W : Type}.
Implicit Types (ctx : SystemContext.t) (ps front back : list (Provider W)).
Implicit Types (st : State W) (errors : list string).

Ltac run_monad :=
  unfold try_except, bind, get_system_prompt, emit, call, ret, raise, now; simpl.

Lemma reasons_length ps es w w' full :
  failures full ps w = Some (es, w') → length es = length ps.
Proof.
  revert es w. induction ps as [|p ps IH]; intros es w; simpl.
  - by intros [= <- _].
  - destruct (generate_async p full w) as [[e|r] w1]; [|discriminate].
    destruct (failures full ps w1) as [[es' w2]|] eqn:F; [|discriminate].
    intros [= <- <-]. simpl. f_equal. by eapply IH.
Qed.

Lemma failover_skips ctx prompt front rest errors st es w1 :
  failures (SystemContext.get_system_prompt ctx prompt) front (world st) = Some (es, w1) →
  failover ctx prompt (front ++ rest) errors st
  = failover ctx prompt rest (errors ++ reasons front es)
      (mkState w1
         (trace st ++ attempt_events prompt (SystemContext.get_system_prompt ctx prompt) front)).
Proof.
  revert errors st es. induction front as [|p front IH]; intros errors st es; simpl.
  - intros [= <- <-]. rewrite !app_nil_r. by destruct st.
  - destruct (generate_async p _ (world st)) as [[e|r] w'] eqn:E; [|discriminate].
    destruct (failures _ front w') as [[es' w2]|] eqn:F; [|discriminate].
    intros [= <- <-]. run_monad. rewrite E.
    rewrite (IH _ (mkState w' _) es' F). simpl.
    unfold reasons. simpl. by rewrite <- !app_assoc.
Qed.

Lemma failover_success ctx prompt p rest errors st r w' :
  generate_async p (SystemContext.get_system_prompt ctx prompt) (world st) = (inr r, w') →
  failover ctx prompt (p :: rest) errors st
  = (inr (<["provider" := name p]> r),
     mkState w' (trace st ++ attempt_events prompt
                               (SystemContext.get_system_prompt ctx prompt) [p])).
Proof.
  intros E. simpl. run_monad. rewrite E. by rewrite <- app_assoc.
Qed.

(** Every run of the loop is one of two: all candidates failed, or a first
    one succeeded after all those before it had failed. *)
Lemma failover_run ctx prompt ps errors st :
  let full := SystemContext.get_system_prompt ctx prompt in
  ∃ attempted rest es w1,
    ps = attempted ++ rest ∧
    failures full attempted (world st) = Some (es, w1) ∧
    ((rest = [] ∧
      failover ctx prompt ps errors st
      = (inl (mkExn NoAvailableProviderError
                ("All providers failed. Errors: "
                   +:+ join "; " (errors ++ reasons attempted es))),
         mkState w1 (trace st ++ attempt_events prompt full attempted)))
     ∨ (∃ p rest' r w2,
          rest = p :: rest' ∧
          generate_async p full w1 = (inr r, w2) ∧
          failover ctx prompt ps errors st
          = (inr (<["provider" := name p]> r),
             mkState w2 (trace st ++ attempt_events prompt full (attempted ++ [p]))))).
Proof.
  intros full. revert errors st.
  induction ps as [|p ps IH]; intros errors st.
  - exists [], [], [], (world st). split_and!; [done..|]. left. split; [done|].
    simpl. unfold raise. rewrite !app_nil_r. by destruct st.
  - destruct (generate_async p full (world st)) as [[e|r] w'] eqn:E.
    + destruct (IH (errors ++ [name p +:+ ": " +:+ exn_msg e])
                  (mkState w' (trace st ++ attempt_events prompt full [p])))
        as (attempted & rest & es & w1 & -> & F & Hrun).
      exists (p :: attempted), rest, (e :: es), w1.
      simpl in F. split_and!; [done| |].
      { simpl. fold full. by rewrite E, F. }
      assert (Hstep : failover ctx prompt (p :: attempted ++ rest) errors st
                = failover ctx prompt (attempted ++ rest)
                    (errors ++ [name p +:+ ": " +:+ exn_msg e])
                    (mkState w' (trace st ++ attempt_events prompt full [p]))).
      { simpl. run_monad. fold full. rewrite E. by rewrite <- app_assoc. }
      rewrite Hstep.
      destruct Hrun as [[-> Hrun]|(q & rest' & r & w2 & -> & G & Hrun)].
      * left. split; [done|]. rewrite Hrun. unfold reasons. simpl.
        by rewrite <- !app_assoc.
      * right. exists q, rest', r, w2. split_and!; [done..|].
        rewrite Hrun. simpl. by rewrite <- !app_assoc.
    + exists [], (p :: ps), [], (world st). split_and!; [done..|].
      right. exists p, ps, r, w'. split_and!; [done..|].
      by apply failover_success.
Qed.

End Failover.

(** ** route_request *)

Section RouteRequest.
Context {W : Type}.
Implicit Types (rules : gmap string (list string)) (reg : list (string * Provider W)).
Implicit Types (ctx : SystemContext.t) (ps front back : list (Provider W)).
Implicit Types (st : State W).

Lemma route_sequence_candidates reg ctx prompt task seq c cs :
  providers_to_try reg seq = c :: cs →
  route_sequence reg ctx (Some seq) prompt task = failover ctx prompt (c :: cs) [].
Proof.
  intros Hc. destruct seq as [|n seq]; [done|].
  unfold route_sequence. by rewrite Hc.
Qed.

Lemma explicit_entry_resolves rules task seq :
  rules !! task = Some seq → resolve rules task = Some seq.
Proof. unfold resolve. by intros ->. Qed.

(** The candidates are the providers registered under the usable names of
    the sequence, one per occurrence of such a name and in the order of the
    sequence; all of them are enabled. *)
Lemma providers_to_try_names reg seq :
  Forall2 (λ m q, get_provider reg m = Some q ∧ enabled q = true)
          (List.filter (usable reg) seq) (providers_to_try reg seq).
Proof.
  unfold providers_to_try, usable.
  induction seq as [|m seq IH]; simpl; [constructor|].
  destruct (get_provider reg m) as [q|] eqn:Hq; [|done].
  destruct (enabled q) eqn:Hen; [|done].
  by constructor.
Qed.

Lemma registered_under_unique reg (names : list string) ps qs :
  Forall2 (λ m q, get_provider reg m = Some q) names ps →
  Forall2 (λ m q, get_provider reg m = Some q ∧ enabled q = true) names qs →
  ps = qs ∧ Forall (λ q, enabled q = true) ps.
Proof.
  intros Hps. revert qs.
  induction Hps as [|m p names ps Hp _ IH]; intros qs Hqs.
  - apply Forall2_nil_inv_l in Hqs as ->. by split.
  - apply Forall2_cons_inv_l in Hqs as (q & qs' & [Hq Hen] & Hqs' & ->).
    destruct (IH _ Hqs') as [-> Hall].
    assert (p = q) as -> by congruence.
    split; [done|by constructor].
Qed.

(** C1: for a task type with an explicit routing entry [seq],
    [route_request] attempts the enabled candidates in the order of the
    routing table.  The names of [seq] that are registered and enabled are,
    in the order of [seq], [names ++ n :: later]; when the providers
    registered under [names] fail one after the other and the one under [n]
    succeeds, the result is that provider's response annotated with its
    name; the calls made are exactly one attempt per name of [names], in
    that order, and then the attempt of [n]: no name of [later] is tried, no
    disabled or unregistered name either, and every provider called is
    enabled. *)
Theorem route_request_first_success rules reg ctx prompt task
    seq names n later front p es r st w1 w2 :
  let full := SystemContext.get_system_prompt ctx prompt in
  rules !! task = Some seq →
  List.filter (usable reg) seq = names ++ n :: later →
  Forall2 (λ m q, get_provider reg m = Some q) names front →
  get_provider reg n = Some p →
  failures full front (world st) = Some (es, w1) →
  generate_async p full w1 = (inr r, w2) →
  route_request rules reg ctx prompt task st
  = (inr (<["provider" := name p]> r),
     mkState w2 (trace st ++ attempt_events prompt full (front ++ [p])))
  ∧ Forall (λ q, enabled q = true) (front ++ [p]).
Proof.
  intros full Hentry Hnames Hfront Hn Hfail Hok.
  pose proof (providers_to_try_names reg seq) as Hall. rewrite Hnames in Hall.
  apply Forall2_app_inv_l in Hall as (front' & rest & Hfront' & Hrest & Hcands).
  apply Forall2_cons_inv_l in Hrest as (p' & back & [Hp' Hen] & _ & ->).
  assert (p' = p) as -> by congruence.
  destruct (registered_under_unique _ _ _ _ Hfront Hfront') as [<- Hall].
  split; [|apply Forall_app; split; [done|by constructor]].
  unfold route_request. rewrite (explicit_entry_resolves _ _ _ Hentry).
  destruct (front ++ p :: back) as [|c cs] eqn:Hshape.
  { by destruct front. }
  rewrite (route_sequence_candidates _ _ _ _ _ _ _ Hcands), <- Hshape.
  rewrite (failover_skips _ _ _ _ _ _ _ _ Hfail).
  rewrite (failover_success _ _ _ _ _ _ r w2); [|done].
  simpl. unfold attempt_events. rewrite flat_map_app. simpl.
  by rewrite <- !app_assoc.
Qed.

(** Whatever [route_request] raises was built by the router itself. *)
Lemma route_request_raises rules reg ctx prompt task st e st' :
  route_request rules reg ctx prompt task st = (inl e, st') →
  e = unroutable task
  ∨ e = mkExn NoAvailableProviderError
          "No enabled LLM providers found in configuration for the requested task."
  ∨ ∃ errors, e = mkExn NoAvailableProviderError
                    ("All providers failed. Errors: " +:+ join "; " errors).
Proof.
  unfold route_request, route_sequence.
  destruct (resolve rules task) as [[|n seq]|]; [by intros [= <- _]; left| |by intros [= <- _]; left].
  destruct (providers_to_try reg (n :: seq)) as [|c cs]; [by intros [= <- _]; right; left|].
  destruct (failover_run ctx prompt (c :: cs) [] st)
    as (attempted & rest & es & w1 & _ & _ & [[_ ->]|(p & rest' & r & w2 & _ & _ & ->)]).
  - intros [= <- _]. right; right. eauto.
  - discriminate.
Qed.

(** C3: when every candidate's generate call fails, [route_request] raises
    [NoAvailableProviderError]; its message lists one reason per attempted
    candidate, [name: error], in the order of the attempts; and no exception
    [route_request] raises is a provider's own: it is the router's
    [ValueError] for an unroutable task or one of its two
    [NoAvailableProviderError]s. *)
Theorem route_request_all_fail rules reg ctx prompt task seq es st w1 :
  let full := SystemContext.get_system_prompt ctx prompt in
  let candidates := providers_to_try reg seq in
  resolve rules task = Some seq →
  candidates ≠ [] →
  failures full candidates (world st) = Some (es, w1) →
  length (reasons candidates es) = length candidates
  ∧ route_request rules reg ctx prompt task st
    = (inl (mkExn NoAvailableProviderError
              ("All providers failed. Errors: " +:+ join "; " (reasons candidates es))),
       mkState w1 (trace st ++ attempt_events prompt full candidates))
  ∧ ∀ prompt' task' st0 e st1,
      route_request rules reg ctx prompt' task' st0 = (inl e, st1) →
      e = unroutable task'
      ∨ e = mkExn NoAvailableProviderError
              "No enabled LLM providers found in configuration for the requested task."
      ∨ ∃ errors, e = mkExn NoAvailableProviderError
                        ("All providers failed. Errors: " +:+ join "; " errors).
Proof.
  intros full candidates Hres Hne Hfail. split_and!.
  - unfold reasons. rewrite length_zip_with_l_eq; [done|].
    symmetry. by eapply reasons_length.
  - unfold route_request. rewrite Hres.
    destruct candidates as [|c cs] eqn:Hc; [done|].
    rewrite (route_sequence_candidates _ _ _ _ _ _ _ Hc).
    rewrite <- (app_nil_r (c :: cs)) at 1.
    rewrite (failover_skips _ _ _ _ _ _ _ _ Hfail). done.
  - intros prompt' task' st0 e st1 Hr. by eapply route_request_raises.
Qed.

(** C10: the [provider] field of what [route_request] returns is the
    registry name of the candidate whose generate call succeeded, whatever
    [provider] field that candidate's own response carried. *)
Theorem route_request_provider_field rules reg ctx prompt task st response st' :
  keyed_by_name reg →
  route_request rules reg ctx prompt task st = (inr response, st') →
  ∃ seq n p r w,
    resolve rules task = Some seq ∧ n ∈ seq ∧
    get_provider reg n = Some p ∧
    generate_async p (SystemContext.get_system_prompt ctx prompt) w = (inr r, world st') ∧
    response = <["provider" := n]> r ∧
    response !! "provider" = Some n.
Proof.
  intros Hkeys. unfold route_request, route_sequence.
  destruct (resolve rules task) as [[|n0 seq]|] eqn:Hres; [discriminate| |discriminate].
  destruct (providers_to_try reg (n0 :: seq)) as [|c cs] eqn:Hc; [discriminate|].
  destruct (failover_run ctx prompt (c :: cs) [] st)
    as (attempted & rest & es & w1 & Hsplit & _
        & [[_ ->]|(p & rest' & r & w2 & -> & Hgen & ->)]); [discriminate|].
  intros [= <- <-].
  assert (Hin : p ∈ providers_to_try reg (n0 :: seq)).
  { rewrite Hc, Hsplit. set_solver. }
  unfold providers_to_try in Hin. apply list_elem_of_omap in Hin as (n & Hn & Hp).
  destruct (get_provider reg n) as [q|] eqn:Hq; [|discriminate].
  destruct (enabled q); [|discriminate]. injection Hp as ->.
  assert (name p = n) as <-.
  { unfold get_provider in Hq. clear -Hq Hkeys.
    induction Hkeys as [|[k v] reg' Hk _ IH]; simpl in *; [discriminate|].
    case_decide; [by simplify_eq|auto]. }
  exists (n0 :: seq), (name p), p, r, w1. split_and!; try done.
  by rewrite lookup_insert_eq.
Qed.

End RouteRequest.

(** ** route_request_stream *)

Section RouteRequestStream.
Context {W : Type}.
Implicit Types (rules : gmap string (list string)) (reg : list (string * Provider W)).
Implicit Types (ctx : SystemContext.t) (ps front back : list (Provider W)).
Implicit Types (st : State W).

Ltac run_monad :=
  unfold try_except, bind, get_system_prompt, forward_stream, emit, call, ret, raise;
  simpl.

Lemma failover_stream_step_raise ctx prompt p rest errors st chunks e w' :
  generate_stream_async p (SystemContext.get_system_prompt ctx prompt) (world st)
  = ((chunks, Some e), w') →
  failover_stream ctx prompt (p :: rest) errors st
  = failover_stream ctx prompt rest (errors ++ [name p +:+ ": " +:+ exn_msg e])
      (mkState w' (trace st ++ stream_attempt prompt
                                 (SystemContext.get_system_prompt ctx prompt) (p, chunks))).
Proof.
  intros E. simpl. run_monad. rewrite E. simpl.
  by rewrite <- app_assoc.
Qed.

Lemma failover_stream_step_end ctx prompt p rest errors st chunks w' :
  generate_stream_async p (SystemContext.get_system_prompt ctx prompt) (world st)
  = ((chunks, None), w') →
  failover_stream ctx prompt (p :: rest) errors st
  = (inr (),
     mkState w' (trace st ++ stream_attempt prompt
                               (SystemContext.get_system_prompt ctx prompt) (p, chunks))).
Proof.
  intros E. simpl. run_monad. rewrite E. simpl.
  by rewrite <- app_assoc.
Qed.

Lemma failover_stream_skips ctx prompt front rest errors st rs w1 :
  let full := SystemContext.get_system_prompt ctx prompt in
  stream_failures full front (world st) = Some (rs, w1) →
  failover_stream ctx prompt (front ++ rest) errors st
  = failover_stream ctx prompt rest (errors ++ stream_reasons front rs)
      (mkState w1 (trace st ++ stream_events prompt full (zip front rs.*1))).
Proof.
  intros full. revert errors st rs.
  induction front as [|p front IH]; intros errors st rs Hf; simpl in Hf.
  - injection Hf as <- <-. simpl. rewrite !app_nil_r. by destruct st.
  - destruct (generate_stream_async p full (world st)) as [[chunks [e|]] w'] eqn:E;
      [|discriminate].
    destruct (stream_failures full front w') as [[rs' w2]|] eqn:F; [|discriminate].
    injection Hf as <- <-. rewrite <- app_comm_cons.
    rewrite (failover_stream_step_raise _ _ _ _ _ _ _ _ _ E).
    rewrite (IH _ (mkState w' _) rs' F). simpl.
    unfold stream_reasons. simpl. by rewrite <- !app_assoc.
Qed.

(** Every run of the streaming loop is one of two: the streams of all
    candidates raised, or one ended without raising after all those before it
    had raised. *)
Lemma failover_stream_run ctx prompt ps errors st :
  let full := SystemContext.get_system_prompt ctx prompt in
  ∃ attempted rest rs w1,
    ps = attempted ++ rest ∧
    stream_failures full attempted (world st) = Some (rs, w1) ∧
    ((rest = [] ∧
      failover_stream ctx prompt ps errors st
      = (inl (mkExn NoAvailableProviderError
                ("All streaming providers failed. Errors: "
                   +:+ join "; " (errors ++ stream_reasons attempted rs))),
         mkState w1 (trace st ++ stream_events prompt full (zip attempted rs.*1))))
     ∨ (∃ p rest' chunks w2,
          rest = p :: rest' ∧
          generate_stream_async p full w1 = ((chunks, None), w2) ∧
          failover_stream ctx prompt ps errors st
          = (inr (),
             mkState w2 (trace st ++ stream_events prompt full
                                       (zip attempted rs.*1 ++ [(p, chunks)]))))).
Proof.
  intros full. revert errors st.
  induction ps as [|p ps IH]; intros errors st.
  - exists [], [], [], (world st). split_and!; [done..|]. left. split; [done|].
    simpl. unfold raise. rewrite !app_nil_r. by destruct st.
  - destruct (generate_stream_async p full (world st)) as [[chunks [e|]] w'] eqn:E.
    + destruct (IH (errors ++ [name p +:+ ": " +:+ exn_msg e])
                  (mkState w' (trace st ++ stream_attempt prompt full (p, chunks))))
        as (attempted & rest & rs & w1 & -> & F & Hrun).
      exists (p :: attempted), rest, ((chunks, e) :: rs), w1.
      simpl in F. split_and!; [done| |].
      { simpl. fold full. by rewrite E, F. }
      rewrite (failover_stream_step_raise _ _ _ _ _ _ _ _ _ E). fold full.
      destruct Hrun as [[-> Hrun]|(q & rest' & cs & w2 & -> & G & Hrun)].
      * left. split; [done|]. rewrite Hrun. unfold stream_reasons. simpl.
        by rewrite <- !app_assoc.
      * right. exists q, rest', cs, w2. split_and!; [done..|].
        rewrite Hrun. simpl. by rewrite <- !app_assoc.
    + exists [], (p :: ps), [], (world st). split_and!; [done..|].
      right. exists p, ps, chunks, w'. split_and!; [done..|].
      rewrite (failover_stream_step_end _ _ _ _ _ _ _ _ E). simpl.
      by rewrite app_nil_r.
Qed.

Lemma route_request_stream_candidates rules reg ctx prompt task seq c cs :
  resolve rules task = Some seq →
  providers_to_try_stream reg seq = c :: cs →
  route_request_stream rules reg ctx prompt task = failover_stream ctx prompt (c :: cs) [].
Proof.
  intros Hres Hc. unfold route_request_stream. rewrite Hres.
  destruct seq as [|n seq]; [done|]. by rewrite Hc.
Qed.


End RouteRequestStream.

(** ** The prompt-decoration hook *)

Section Hook.
Context {W : Type}.
Implicit Types (rules : gmap string (list string)) (reg : list (string * Provider W)).
Implicit Types (ctx : SystemContext.t) (ps : list (Provider W)) (st : State W).

Lemma hook_calls_app t1 t2 : hook_calls (t1 ++ t2) = hook_calls t1 + hook_calls t2.
Proof. unfold hook_calls. by rewrite List.filter_app, length_app. Qed.

Lemma hook_calls_attempts prompt full ps :
  hook_calls (attempt_events prompt full ps) = length ps.
Proof. induction ps as [|p ps IH]; [done|]. simpl. unfold hook_calls in *. simpl. by rewrite IH. Qed.

Lemma hook_calls_yields (who : string) (chunks : list (gmap string string)) :
  hook_calls (map (λ chunk, EvYield (<["provider" := who]> chunk)) chunks) = 0.
Proof. by induction chunks. Qed.

Lemma hook_calls_stream prompt full (runs : list (Provider W * list (gmap string string))) :
  hook_calls (stream_events prompt full runs) = length runs.
Proof.
  induction runs as [|[p chunks] runs IH]; [done|].
  unfold stream_events in *. simpl.
  change (hook_calls ([EvGetSystemPrompt prompt; EvStream (name p) full]
            ++ (map (λ chunk, EvYield (<["provider" := name p]> chunk)) chunks
            ++ flat_map (stream_attempt prompt full) runs)) = S (length runs)).
  by rewrite !hook_calls_app, hook_calls_yields, IH.
Qed.

Lemma stream_failures_length full ps (w w' : W) rs :
  stream_failures full ps w = Some (rs, w') → length rs = length ps.
Proof.
  revert rs w. induction ps as [|p ps IH]; intros rs w; simpl.
  - by intros [= <- _].
  - destruct (generate_stream_async p full w) as [[? [e|]] w1]; [|discriminate].
    destruct (stream_failures full ps w1) as [[rs' w2]|] eqn:F; [|discriminate].
    intros [= <- <-]. simpl. f_equal. by eapply IH.
Qed.

(** C4, as the code has it: [get_system_prompt] is called once per provider
    attempt, right before the provider is called, each time on the raw prompt
    of the request, so every attempt of a request is handed the same decorated
    prompt; a request that makes [n] attempts calls the hook [n] times.  This
    holds for [route_request] and for [route_request_stream]. *)
Theorem hook_called_once_per_attempt rules reg ctx prompt task st :
  let full := SystemContext.get_system_prompt ctx prompt in
  (∃ attempted : list (Provider W),
     attempted `prefix_of` default [] (providers_to_try reg <$> resolve rules task) ∧
     trace (route_request rules reg ctx prompt task st).2
     = trace st ++ attempt_events prompt full attempted ∧
     hook_calls (attempt_events prompt full attempted) = length attempted)
  ∧ (∃ runs : list (Provider W * list (gmap string string)),
       runs.*1 `prefix_of` default [] (providers_to_try_stream reg <$> resolve rules task) ∧
       trace (route_request_stream rules reg ctx prompt task st).2
       = trace st ++ stream_events prompt full runs ∧
       hook_calls (stream_events prompt full runs) = length runs).
Proof.
  intros full. split.
  - unfold route_request, route_sequence.
    destruct (resolve rules task) as [[|n seq]|];
      try (exists []; split_and!; [apply prefix_nil|by rewrite app_nil_r|done]).
    change (default [] (providers_to_try reg <$> Some (n :: seq)))
      with (providers_to_try reg (n :: seq)).
    destruct (providers_to_try reg (n :: seq)) as [|c cs] eqn:Hc;
      [exists []; split_and!; [apply prefix_nil|by rewrite app_nil_r|done]|].
    destruct (failover_run ctx prompt (c :: cs) [] st)
      as (attempted & rest & es & w1 & Hsplit & _
          & [[_ ->]|(p & rest' & r & w2 & -> & _ & ->)]).
    + exists attempted. split_and!; [|done|apply hook_calls_attempts].
      rewrite Hsplit. by eexists.
    + exists (attempted ++ [p]). split_and!; [|done|apply hook_calls_attempts].
      rewrite Hsplit. exists rest'. by rewrite <- app_assoc.
  - unfold route_request_stream.
    destruct (resolve rules task) as [[|n seq]|];
      try (exists []; split_and!; [apply prefix_nil|by rewrite app_nil_r|done]).
    change (default [] (providers_to_try_stream reg <$> Some (n :: seq)))
      with (providers_to_try_stream reg (n :: seq)).
    destruct (providers_to_try_stream reg (n :: seq)) as [|c cs] eqn:Hc;
      [exists []; split_and!; [apply prefix_nil|by rewrite app_nil_r|done]|].
    destruct (failover_stream_run ctx prompt (c :: cs) [] st)
      as (attempted & rest & rs & w1 & Hsplit & Hf
          & [[_ ->]|(p & rest' & chunks & w2 & -> & _ & ->)]).
    + exists (zip attempted rs.*1). split_and!; [|done|apply hook_calls_stream].
      rewrite Hsplit.
      rewrite fst_zip; [by eexists|].
      rewrite length_fmap. by rewrite (stream_failures_length _ _ _ _ _ Hf).
    + exists (zip attempted rs.*1 ++ [(p, chunks)]).
      split_and!; [|done|apply hook_calls_stream].
      rewrite Hsplit, fmap_app. simpl.
      rewrite fst_zip; [exists rest'; by rewrite <- app_assoc|].
      rewrite length_fmap. by rewrite (stream_failures_length _ _ _ _ _ Hf).
Qed.

End Hook.

(** ** get_provider_statuses *)

Section Health.
Context {W : Type}.
Implicit Types (reg : list (string * Provider W)) (ps : list (Provider W)).
Implicit Types (st : State W) (utcnow : W → string).

Ltac run_monad :=
  unfold try_except, bind, emit, call, ret, raise, now; simpl.

Lemma probe_outcomes_length ps (w : W) : length (probe_outcomes ps w).1 = length ps.
Proof.
  revert w. induction ps as [|p ps IH]; intros w; simpl; [done|].
  destruct (check_health p w) as [o w1].
  specialize (IH w1). destruct (probe_outcomes ps w1) as [os w2]. simpl in *. by rewrite IH.
Qed.

Lemma gather_run ps st :
  gather ps st
  = (inr (map settled (probe_outcomes ps (world st)).1),
     mkState (probe_outcomes ps (world st)).2
             (trace st ++ map (λ p, EvCheckHealth (name p)) ps)).
Proof.
  revert st. induction ps as [|p ps IH]; intros st; simpl.
  - unfold ret. rewrite app_nil_r. by destruct st.
  - unfold safe_check. run_monad.
    destruct (check_health p (world st)) as [[e|v] w1]; simpl;
      rewrite IH; simpl; destruct (probe_outcomes ps w1) as [os w2]; simpl;
      by rewrite <- app_assoc.
Qed.

Lemma process_results_run utcnow ps (rs : list HealthValue) st :
  length rs = length ps →
  process_results utcnow ps rs st
  = (inr (zip_with (λ p r, enabled_record p r (utcnow (world st))) ps rs), st).
Proof.
  revert rs. induction ps as [|p ps IH]; intros [|r rs] Hlen; simpl in *; try done.
  run_monad. rewrite IH by lia. done.
Qed.

Lemma disabled_records_run utcnow ps st :
  disabled_records utcnow ps st
  = (inr (map (λ p, disabled_record p (utcnow (world st))) ps), st).
Proof.
  induction ps as [|p ps IH]; simpl; [done|].
  run_monad. by rewrite IH.
Qed.

Lemma get_provider_statuses_run reg utcnow st :
  let enabled_providers := List.filter enabled (dict_values reg) in
  let disabled_providers := List.filter (λ p, negb (enabled p)) (dict_values reg) in
  let records := records_of utcnow reg (world st) in
  get_provider_statuses reg utcnow st
  = (inr {| summary :=
              {| total_providers := length reg;
                 sm_enabled := length enabled_providers;
                 sm_disabled := length disabled_providers;
                 sm_errors := length (List.filter is_error records) |};
            providers := records |},
     mkState (probe_outcomes enabled_providers (world st)).2
             (trace st ++ map (λ p, EvCheckHealth (name p)) enabled_providers)).
Proof.
  intros enabled_providers disabled_providers records.
  unfold get_provider_statuses, records, records_of.
  fold enabled_providers disabled_providers.
  unfold bind at 1.
  assert (Hchecked :
    (match enabled_providers with
     | [] => ret []
     | _ :: _ => let* results := gather enabled_providers in
                 process_results utcnow enabled_providers results
     end) st
    = (inr (zip_with (λ p o, enabled_record p (settled o)
                               (utcnow (probe_outcomes enabled_providers (world st)).2))
              enabled_providers (probe_outcomes enabled_providers (world st)).1),
       mkState (probe_outcomes enabled_providers (world st)).2
               (trace st ++ map (λ p, EvCheckHealth (name p)) enabled_providers))).
  { destruct enabled_providers as [|p ps] eqn:Hps.
    - simpl. unfold ret. rewrite app_nil_r. by destruct st.
    - rewrite <- Hps. unfold bind. rewrite gather_run.
      rewrite process_results_run
        by (by rewrite length_map, probe_outcomes_length).
      simpl. f_equal. f_equal.
      generalize (probe_outcomes enabled_providers (world st)).1.
      generalize (utcnow (probe_outcomes enabled_providers (world st)).2).
      clear. induction enabled_providers as [|q qs IH]; intros ts [|o os]; simpl; try done.
      by rewrite IH. }
  rewrite Hchecked. unfold bind. rewrite disabled_records_run. done.
Qed.

Lemma filter_partition {A} (f : A → bool) (l : list A) :
  List.filter f l ++ List.filter (λ x, negb (f x)) l ≡ₚ l.
Proof.
  induction l as [|a l IH]; simpl; [done|].
  destruct (f a); simpl.
  - by rewrite IH.
  - by rewrite <- Permutation_middle, IH.
Qed.

Lemma enabled_records_names utcnow ps (os : list (Exn + HealthValue)) (w : W) :
  length os = length ps →
  map sr_name (zip_with (λ p o, enabled_record p (settled o) (utcnow w)) ps os)
  = map name ps.
Proof.
  revert os. induction ps as [|p ps IH]; intros [|o os] Hlen; simpl in *; try done.
  rewrite IH by lia. f_equal. by destruct o as [e|[d|e|]].
Qed.

Lemma records_of_lookup utcnow reg (w : W) i p o :
  List.filter enabled (dict_values reg) !! i = Some p →
  (probe_outcomes (List.filter enabled (dict_values reg)) w).1 !! i = Some o →
  records_of utcnow reg w !! i
  = Some (enabled_record p (settled o)
            (utcnow (probe_outcomes (List.filter enabled (dict_values reg)) w).2)).
Proof.
  intros Hp Ho. unfold records_of.
  rewrite lookup_app_l.
  - rewrite lookup_zip_with. by rewrite Hp, Ho.
  - rewrite length_zip_with. apply lookup_lt_Some in Hp, Ho. lia.
Qed.

(** What the summary counts as errors are the records whose status is
    [Error]. *)
Lemma errors_count (l : list StatusRecord) :
  length (List.filter is_error l)
  = length (filter (λ r, sr_status r = "Error") l).
Proof.
  induction l as [|r l IH]; [done|]. rewrite filter_cons. simpl.
  unfold is_error at 1.
  destruct (String.eqb_spec (sr_status r) "Error") as [He|He];
    case_decide; try done; simpl; by rewrite IH.
Qed.

(** C7: [get_provider_statuses] never raises and returns one record per
    provider of the registry; a probe that raised gives a record with status
    [Error] whose details are [Health check failed: ] followed by the
    message of the exception; and the [errors] count of the summary is the
    number of records with status [Error] in the list returned. *)
Theorem health_report_complete reg utcnow st :
  let enabled_providers := List.filter enabled (dict_values reg) in
  ∃ report st',
    get_provider_statuses reg utcnow st = (inr report, st') ∧
    map sr_name (providers report) ≡ₚ map name (dict_values reg) ∧
    (∀ i p e,
       enabled_providers !! i = Some p →
       (probe_outcomes enabled_providers (world st)).1 !! i = Some (inl e) →
       ∃ r, providers report !! i = Some r ∧ sr_name r = name p ∧
            sr_status r = "Error" ∧
            sr_details r = "Health check failed: " +:+ exn_msg e) ∧
    sm_errors (summary report)
    = length (filter (λ r, sr_status r = "Error") (providers report)).
Proof.
  intros enabled_providers. eexists _, _. split; [apply get_provider_statuses_run|].
  simpl. split_and!; [| |apply errors_count].
  - unfold records_of. rewrite map_app, map_map. simpl.
    rewrite enabled_records_names by apply probe_outcomes_length.
    rewrite <- map_app. apply Permutation_map, filter_partition.
  - intros i p e Hp Ho. eexists. split; [by apply records_of_lookup|]. done.
Qed.

End Health.

(** ** The concrete providers and the loaded registry *)

Section Concrete.
Context {W : Type} (backend : Backend W).

Lemma stream_chunk_tagged token : tagged "stream_chunk" (stream_chunk token).
Proof. unfold tagged, stream_chunk. by rewrite lookup_insert_ne, lookup_insert_eq. Qed.

Lemma error_chunk_tagged who e : tagged "error" (error_chunk who e).
Proof. unfold tagged, error_chunk. by rewrite lookup_insert_ne, lookup_insert_eq. Qed.

Lemma Ollama_lines_tagged lines :
  Forall (tagged "stream_chunk") (Ollama_lines backend lines).1.
Proof.
  induction lines as [|line lines IH]; simpl; [constructor|].
  destruct (nonempty line); [|done].
  destruct (json_loads backend line) as [|chunk_data|ty]; [done| |constructor].
  destruct (nonempty _); [|done].
  destruct (Ollama_lines backend lines) as [chunks raised]. simpl in *.
  constructor; [apply stream_chunk_tagged|done].
Qed.

(** C9: the streams of both concrete providers never raise; when the backend
    fails, at the start or after tokens were delivered, the chunks yielded
    are the stream chunks produced so far followed by exactly one element
    tagged [error], the last of the sequence, after which the stream ends
    normally; without a failure no element is tagged [error]. *)
Theorem provider_streams_fail_in_band self_name model_name endpoint prompt w :
  (∃ body w',
     Forall (tagged "stream_chunk") body ∧
     match (generate_content_stream backend model_name prompt w).1.2 with
     | Some e =>
         Gemini_generate_stream_async backend self_name model_name prompt w
         = ((body ++ [error_chunk self_name e], None), w')
         ∧ tagged "error" (error_chunk self_name e)
     | None =>
         Gemini_generate_stream_async backend self_name model_name prompt w
         = ((body, None), w')
     end)
  ∧ (∃ body w',
       Forall (tagged "stream_chunk") body ∧
       match Ollama_failure backend endpoint model_name prompt w with
       | Some e =>
           Ollama_generate_stream_async backend self_name endpoint model_name prompt w
           = ((body ++ [error_chunk self_name e], None), w')
           ∧ tagged "error" (error_chunk self_name e)
       | None =>
           Ollama_generate_stream_async backend self_name endpoint model_name prompt w
           = ((body, None), w')
       end).
Proof.
  split.
  - unfold Gemini_generate_stream_async.
    destruct (generate_content_stream backend model_name prompt w)
      as [[tokens failure] w'].
    exists (map stream_chunk tokens), w'. split.
    + induction tokens; constructor; auto using stream_chunk_tagged.
    + simpl. destruct failure; [split; [done|apply error_chunk_tagged]|done].
  - unfold Ollama_generate_stream_async, Ollama_failure.
    destruct (httpx_stream_lines backend endpoint model_name prompt w)
      as [[lines failure] w'].
    pose proof (Ollama_lines_tagged lines) as Htag. simpl.
    destruct (Ollama_lines backend lines) as [chunks raised]. simpl in *.
    exists chunks, w'. split; [done|].
    destruct raised as [e|]; [split; [done|apply error_chunk_tagged]|].
    destruct failure; [split; [done|apply error_chunk_tagged]|done].
Qed.

Lemma Gemini_probe_in_domain api_key model_name w :
  ∃ s d w',
    Gemini_check_health backend api_key model_name w = (inr (health s d), w')
    ∧ s ∈ ["Active"; "Offline"; "Error"].
Proof.
  unfold Gemini_check_health. destruct (nonempty api_key); simpl.
  - destruct (genai_list_models backend api_key w) as [[e|models] w'].
    + eexists _, _, _. split; [done|set_solver].
    + destruct (existsb _ models); eexists _, _, _; (split; [done|set_solver]).
  - eexists _, _, _. split; [done|set_solver].
Qed.

Lemma Ollama_probe_in_domain base_url w :
  ∃ s d w',
    Ollama_check_health backend base_url w = (inr (health s d), w')
    ∧ s ∈ ["Active"; "Offline"; "Error"].
Proof.
  unfold Ollama_check_health. destruct (nonempty base_url); simpl.
  - destruct (httpx_get backend _ w) as [[e|] w'].
    + destruct (exn_class e); eexists _, _, _; (split; [done|set_solver]).
    + eexists _, _, _. split; [done|set_solver].
  - eexists _, _, _. split; [done|set_solver].
Qed.

Lemma GeminiProvider_ok n c p :
  default true (cfg_enabled c) = true →
  GeminiProvider backend n c = inr p → loaded_ok (n, p).
Proof.
  intros Hen. unfold GeminiProvider.
  destruct (negb _); [discriminate|].
  destruct (genai_GenerativeModel backend _); [discriminate|].
  intros [= <-]. split_and!; simpl; [done|done| |].
  - intros w. apply Gemini_probe_in_domain.
  - intros prompt w. simpl. unfold Gemini_generate_stream_async.
    destruct (generate_content_stream backend _ prompt w) as [[tokens [e|]] w']; done.
Qed.

Lemma OllamaProvider_ok n c p :
  default true (cfg_enabled c) = true →
  OllamaProvider backend n c = inr p → loaded_ok (n, p).
Proof.
  intros Hen. unfold OllamaProvider.
  destruct (negb _); [discriminate|].
  intros [= <-]. split_and!; simpl; [done|done| |].
  - intros w. apply Ollama_probe_in_domain.
  - intros prompt w. simpl. unfold Ollama_generate_stream_async.
    destruct (httpx_stream_lines backend _ _ prompt w) as [[lines failure] w'].
    destruct (Ollama_lines backend lines) as [chunks [e|]]; [done|].
    by destruct failure.
Qed.

Lemma Forall_dict_set {V} (P : string * V → Prop) k v (d : list (string * V)) :
  P (k, v) → Forall P d → Forall P (dict_set k v d).
Proof.
  intros Hkv. induction 1 as [|[k' v'] d Hhd Htl IH]; simpl.
  - by constructor.
  - case_decide; constructor; auto.
Qed.

Lemma load_entry_ok providers entry :
  Forall loaded_ok providers → Forall loaded_ok (load_entry backend providers entry).
Proof.
  intros Hok. destruct entry as [c|]; [|done]. simpl.
  destruct (negb _ || negb _); [done|].
  destruct (default true (cfg_enabled c)) eqn:Hen; [|done].
  unfold PROVIDER_CLASSES. repeat case_decide; [| |done].
  - destruct (GeminiProvider backend _ c) as [e|p] eqn:Hp; [done|].
    apply Forall_dict_set; [|done]. by eapply GeminiProvider_ok.
  - destruct (OllamaProvider backend _ c) as [e|p] eqn:Hp; [done|].
    apply Forall_dict_set; [|done]. by eapply OllamaProvider_ok.
Qed.

(** Every provider of a registry filled by [_load_providers] is enabled,
    stored under its own name, and an instance of one of the two concrete
    classes. *)
Lemma loaded_registry_ok file : Forall loaded_ok (_load_providers backend file).
Proof.
  unfold _load_providers.
  destruct file as [|e|[config|]]; try by constructor.
  destruct (config !! "providers") as [[entries|]|]; try by constructor.
  assert (Hgen : ∀ acc, Forall loaded_ok acc →
                        Forall loaded_ok (foldl (load_entry backend) acc entries)).
  { induction entries as [|entry entries IH]; intros acc Hacc; simpl; [done|].
    apply IH. by apply load_entry_ok. }
  apply Hgen. constructor.
Qed.

End Concrete.

(** ** The status of a health record *)

Section Status.
Context {W : Type}.
Implicit Types (reg : list (string * Provider W)) (ps : list (Provider W)).
Implicit Types (st : State W) (utcnow : W → string).

Lemma probe_outcomes_lookup ps (w : W) i p o :
  ps !! i = Some p → (probe_outcomes ps w).1 !! i = Some o →
  ∃ w0 w1, check_health p w0 = (o, w1).
Proof.
  revert w i. induction ps as [|q ps IH]; intros w i; [done|]. simpl.
  destruct (check_health q w) as [o0 w1] eqn:E.
  specialize (IH w1). destruct (probe_outcomes ps w1) as [os w2]. simpl in *.
  destruct i as [|i]; simpl.
  - intros [= <-] [= <-]. eauto.
  - apply IH.
Qed.

Lemma health_status s d : (<["details" := d]> (<["status" := s]> ∅) : gmap string string) !! "status" = Some s.
Proof. by rewrite lookup_insert_ne, lookup_insert_eq. Qed.

(** Where a record of the report comes from. *)
Lemma records_of_inv utcnow reg (w : W) i r :
  let enabled_providers := List.filter enabled (dict_values reg) in
  let outcomes := probe_outcomes enabled_providers w in
  records_of utcnow reg w !! i = Some r →
  (∃ p o, enabled_providers !! i = Some p ∧ outcomes.1 !! i = Some o ∧
          r = enabled_record p (settled o) (utcnow outcomes.2))
  ∨ (∃ p : Provider W, r = disabled_record p (utcnow outcomes.2)).
Proof.
  intros enabled_providers outcomes. unfold records_of.
  fold enabled_providers. fold outcomes.
  intros [Hr|[_ Hr]]%lookup_app_Some.
  - left. apply lookup_zip_with_Some in Hr as (p & o & -> & Hp & Ho). eauto.
  - right. apply list_lookup_fmap_Some in Hr as (p & -> & _). eauto.
Qed.

(** C8, as the code has it: the status of a record is [Error], [Disabled]
    or [Unknown], set by the aggregator, or else the value found under
    [status] in the dictionary the probe returned, passed through as it is;
    it is [Unknown] whenever the probe returns a dictionary without a
    [status] field, or a value that is neither a dictionary nor an
    exception; it is [Error] whenever the probe raises or returns an
    exception object; and since the probes of the two concrete providers
    only report [Active], [Offline] or [Error], every record of a registry
    filled by [_load_providers] has its status in the closed set. *)
Theorem health_status_values reg utcnow st :
  let enabled_providers := List.filter enabled (dict_values reg) in
  let outcomes := (probe_outcomes enabled_providers (world st)).1 in
  ∃ report st',
    get_provider_statuses reg utcnow st = (inr report, st') ∧
    (∀ i r, providers report !! i = Some r →
       sr_status r ∈ ["Error"; "Disabled"; "Unknown"]
       ∨ ∃ d, outcomes !! i = Some (inr (HDict d)) ∧ d !! "status" = Some (sr_status r)) ∧
    (∀ i p v,
       enabled_providers !! i = Some p → outcomes !! i = Some (inr v) →
       (v = HOther ∨ ∃ d, v = HDict d ∧ d !! "status" = None) →
       ∃ r, providers report !! i = Some r ∧ sr_name r = name p ∧
            sr_status r = "Unknown") ∧
    (∀ i p o e,
       enabled_providers !! i = Some p → outcomes !! i = Some o →
       (o = inl e ∨ o = inr (HException e)) →
       ∃ r, providers report !! i = Some r ∧ sr_name r = name p ∧
            sr_status r = "Error" ∧
            sr_details r = "Health check failed: " +:+ exn_msg e) ∧
    (∀ backend file,
       reg = _load_providers backend file →
       Forall (λ r, sr_status r ∈ status_domain) (providers report)).
Proof.
  intros enabled_providers outcomes.
  eexists _, _. split; [apply get_provider_statuses_run|]. simpl. split_and!.
  - intros i r Hr. apply records_of_inv in Hr as [(p & o & Hp & Ho & ->)|[p ->]].
    + destruct o as [e|[d|e|]]; simpl; [set_solver| |set_solver|set_solver].
      destruct (d !! "status") as [s|] eqn:Hs; simpl; [|set_solver].
      right. exists d. by rewrite Hs.
    + left. simpl. set_solver.
  - intros i p v Hp Ho Hv. eexists. split; [by apply records_of_lookup|].
    split; [by destruct v|].
    destruct Hv as [->|(d & -> & Hd)]; simpl; [done|]. by rewrite Hd.
  - intros i p o e Hp Ho Hv. eexists. split; [by apply records_of_lookup|].
    by destruct Hv as [->| ->].
  - intros backend file ->. apply Forall_lookup. intros i r Hr.
    apply records_of_inv in Hr as [(p & o & Hp & Ho & ->)|[p ->]];
      [|simpl; unfold status_domain; set_solver].
    destruct (probe_outcomes_lookup _ _ _ _ _ Hp Ho) as (w0 & w1 & Hprobe).
    assert (Hin : p ∈ dict_values (_load_providers backend file)).
    { apply list_elem_of_lookup_2 in Hp. apply list_elem_of_In in Hp.
      apply List.filter_In in Hp as [Hp _]. by apply list_elem_of_In. }
    unfold dict_values in Hin. apply list_elem_of_fmap in Hin as ([k q] & -> & Hkq).
    pose proof (loaded_registry_ok backend file) as Hall.
    rewrite Forall_forall in Hall. apply Hall in Hkq as (_ & _ & Hdom & _).
    simpl in Hdom, Hprobe. destruct (Hdom w0) as (s & d & w' & Hh & Hs).
    rewrite Hh in Hprobe. injection Hprobe as <- <-. simpl.
    rewrite health_status. simpl. unfold status_domain.
    repeat (apply elem_of_cons in Hs as [->|Hs]; [by repeat constructor|]).
    by apply elem_of_nil in Hs.
Qed.

End Status.

(** ** The routing table *)

Section Routing.
Context {W : Type}.
Implicit Types (rules : gmap string (list string)) (reg : list (string * Provider W)).

(** C6: a task type without an entry of its own is resolved through the
    [__default__] entry, and [route_request] goes on from there; and when
    [routing.yaml] is missing, every task type resolves to the built-in
    list of exactly two provider names. *)
Theorem default_entry_resolution rules reg ctx prompt task :
  (rules !! task = None →
   resolve rules task = rules !! "__default__"
   ∧ route_request rules reg ctx prompt task
     = route_sequence reg ctx (rules !! "__default__") prompt task)
  ∧ resolve (_load_routing_rules FileMissing) task
    = Some ["gemini-primary"; "ollama-failover"]
  ∧ length ["gemini-primary"; "ollama-failover"] = 2.
Proof.
  split_and!; [|  |done].
  - intros Hnone. unfold route_request, resolve. by rewrite Hnone.
  - unfold resolve, _load_routing_rules.
    destruct (decide (task = "__default__")) as [->|Hne].
    + by rewrite lookup_insert_eq.
    + rewrite lookup_insert_ne, lookup_empty by done. by rewrite lookup_insert_eq.
Qed.

(** Disabled providers are never candidates, of either call. *)
Lemma candidates_enabled reg seq (p : Provider W) :
  p ∈ providers_to_try reg seq ∨ p ∈ providers_to_try_stream reg seq →
  enabled p = true.
Proof.
  unfold providers_to_try, providers_to_try_stream.
  intros [Hin|Hin]; apply list_elem_of_omap in Hin as (n & _ & Hp);
    destruct (get_provider reg n) as [q|]; try discriminate;
    destruct (enabled q) eqn:Hq; try discriminate; simpl in Hp.
  - by injection Hp as <-.
  - destruct (supports_streaming q); [|discriminate]. by injection Hp as <-.
Qed.

(** A registry filled by [_load_providers] holds no disabled provider. *)
Lemma loaded_registry_all_enabled (backend : Backend W) file :
  List.filter (λ p, negb (enabled p)) (dict_values (_load_providers backend file)) = [].
Proof.
  pose proof (loaded_registry_ok backend file) as Hall.
  induction Hall as [|[k p] reg (_ & Hen & _) _ IH]; simpl in *; [done|].
  by rewrite Hen.
Qed.

End Routing.

(** ** The gateway on sample configurations *)

(** C5: with [ollama-failover] configured [enabled: false] next to an
    enabled [gemini-primary], the registry holds [gemini-primary] only, so
    the health report has a single record, none for [ollama-failover], and
    counts no disabled provider. *)
Theorem disabled_provider_not_reported :
  let reg := _load_providers quiet_backend sample_providers_yaml in
  map fst reg = ["gemini-primary"]
  ∧ ∃ report st',
      get_provider_statuses reg epoch start = (inr report, st')
      ∧ map (λ r, (sr_name r, sr_status r)) (providers report)
        = [("gemini-primary", "Active")]
      ∧ total_providers (summary report) = 1
      ∧ sm_disabled (summary report) = 0
      ∧ trace st' = [EvCheckHealth "gemini-primary"].
Proof.
  split; [by vm_compute|].
  eexists _, _. split; [apply get_provider_statuses_run|].
  by vm_compute.
Qed.

(** The router itself keeps no record of the chunks it has forwarded; that
    no attempt follows a chunk rests on the contract of the streams.  With
    [p1_midstream], which breaks it by raising after a chunk, the router
    goes on to [p2]. *)
Lemma stream_failover_after_chunk :
  ¬ no_attempt_after_yield
      (trace (route_request_stream sample_rules raising_midstream no_context
                "hi" "summarize" start).2).
Proof.
  intros Hno.
  assert (4 < 2); [|lia].
  apply (Hno 2 4 (<["provider" := "p1"]> (stream_chunk "Hel")) "p2" "hi");
    by vm_compute.
Qed.

(** C4 fails as stated: with a first candidate that fails and a second that
    answers, the hook is called twice in one request, by either call. *)
Lemma hook_called_twice :
  ¬ hook_called_once
      (trace (route_request sample_rules failing_then_ok no_context
                "hi" "summarize" start).2)
  ∧ ¬ hook_called_once
        (trace (route_request_stream sample_rules failing_then_ok no_context
                  "hi" "summarize" start).2).
Proof. split; intros H; vm_compute in H; discriminate. Qed.

(** C8 fails as stated: a probe that reports [Degraded] gives a record with
    status [Degraded]. *)
Lemma odd_status_passes_through :
  ∃ report st',
    get_provider_statuses odd_status epoch start = (inr report, st')
    ∧ ¬ Forall (λ r, sr_status r ∈ status_domain) (providers report).
Proof.
  eexists _, _. split; [apply get_provider_statuses_run|].
  intros Hall. apply Forall_inv in Hall. vm_compute in Hall.
  repeat (apply elem_of_cons in Hall as [Hall|Hall]; [discriminate|]).
  by apply elem_of_nil in Hall.
Qed.

(** The scenario of a failing [p1] followed by [p2]: [p1] is called once,
    then [p2], whose response is returned under the name [p2]. *)
Lemma route_request_first_success_witness :
  sample_rules !! "summarize" = Some ["p1"; "p2"]
  ∧ List.filter (usable failing_then_ok) ["p1"; "p2"] = ["p1"] ++ "p2" :: []
  ∧ route_request sample_rules failing_then_ok no_context "hi" "summarize" start
    = (inr (<["provider" := "p2"]> (answer "someone-else" "OK")),
       mkState tt [EvGetSystemPrompt "hi"; EvGenerate "p1" "hi";
                   EvGetSystemPrompt "hi"; EvGenerate "p2" "hi"]).
Proof.
  split; [by vm_compute|]. split; [by vm_compute|].
  apply (route_request_first_success sample_rules failing_then_ok no_context
           "hi" "summarize" ["p1"; "p2"] ["p1"] "p2" [] [p1_failing] p2_ok
           [boom "quota exceeded"] (answer "someone-else" "OK") start tt tt);
    try (by vm_compute).
  by repeat constructor.
Defined.

(** When [p1] and [p2] both fail, the message lists the two reasons in the
    order of the attempts. *)
Lemma route_request_all_fail_witness :
  resolve sample_rules "summarize" = Some ["p1"; "p2"]
  ∧ route_request sample_rules both_failing no_context "hi" "summarize" start
    = (inl (mkExn NoAvailableProviderError
              "All providers failed. Errors: p1: quota exceeded; p2: timeout"),
       mkState tt [EvGetSystemPrompt "hi"; EvGenerate "p1" "hi";
                   EvGetSystemPrompt "hi"; EvGenerate "p2" "hi"]).
Proof.
  split; [by vm_compute|].
  refine (proj1 (proj2 (route_request_all_fail sample_rules both_failing no_context
            "hi" "summarize" ["p1"; "p2"] [boom "quota exceeded"; boom "timeout"]
            start tt _ _ _))); by vm_compute.
Defined.

(** [p2] names another provider in its response; what the caller receives
    says [p2]. *)
Lemma route_request_provider_field_witness :
  keyed_by_name failing_then_ok
  ∧ ∃ seq n p r w,
      resolve sample_rules "summarize" = Some seq ∧ n ∈ seq ∧
      get_provider failing_then_ok n = Some p ∧
      generate_async p (SystemContext.get_system_prompt no_context "hi") w = (inr r, tt) ∧
      <["provider" := "p2"]> (answer "someone-else" "OK") = <["provider" := n]> r ∧
      (<["provider" := "p2"]> (answer "someone-else" "OK") : gmap string string)
        !! "provider" = Some n.
Proof.
  assert (Hkeys : keyed_by_name failing_then_ok) by (by repeat constructor).
  split; [done|].
  apply (route_request_provider_field sample_rules failing_then_ok no_context
           "hi" "summarize" start _
           (mkState tt [EvGetSystemPrompt "hi"; EvGenerate "p1" "hi";
                        EvGetSystemPrompt "hi"; EvGenerate "p2" "hi"]) Hkeys).
  by vm_compute.
Defined.

(** A task type that the sample rules do not list goes through their
    [__default__] entry. *)
Lemma default_entry_resolution_witness :
  sample_rules !! "translate" = None
  ∧ resolve sample_rules "translate" = sample_rules !! "__default__"
  ∧ route_request sample_rules failing_then_ok no_context "hi" "translate"
    = route_sequence failing_then_ok no_context (sample_rules !! "__default__")
        "hi" "translate".
Proof.
  assert (Hnone : sample_rules !! "translate" = None) by (by vm_compute).
  split; [done|].
  exact (proj1 (default_entry_resolution sample_rules failing_then_ok no_context
                  "hi" "translate") Hnone).
Defined.

(** Three enabled providers, two with a healthy probe and one whose probe
    raises: three records, the last one [Error], and [errors: 1]. *)
Example three_probes_one_crashing :
  ∃ report st',
    get_provider_statuses two_healthy_one_crashing epoch start = (inr report, st')
    ∧ map (λ r, (sr_name r, sr_status r, sr_details r)) (providers report)
      = [("p1", "Active", "fine"); ("p2", "Active", "fine");
         ("p3", "Error", "Health check failed: probe crashed")]
    ∧ sm_errors (summary report) = 1
    ∧ sm_enabled (summary report) = 3.
Proof.
  eexists _, _. split; [apply get_provider_statuses_run|]. by vm_compute.
Qed.

(** * Further properties *)

(** ** The provider registry *)

Section Registry.
Context {W : Type} (backend : Backend W).
Implicit Types (reg : list (string * Provider W)) (entry : ConfigEntry).

Lemma dict_get_set_eq {V} k (v : V) d : dict_get k (dict_set k v d) = Some v.
Proof.
  induction d as [|[k' v'] d IH]; simpl.
  - by case_decide.
  - destruct (decide (k = k')) as [->|Hne]; simpl; case_decide; done.
Qed.

Lemma dict_get_set_ne {V} k k' (v : V) d :
  k ≠ k' → dict_get k' (dict_set k v d) = dict_get k' d.
Proof.
  intros Hne. induction d as [|[k0 v0] d IH]; simpl.
  - case_decide; [congruence|done].
  - destruct (decide (k = k0)) as [->|Hne0]; simpl.
    + repeat case_decide; congruence.
    + case_decide; [done|apply IH].
Qed.

Lemma dict_set_keys {V} k (v : V) d :
  map fst (dict_set k v d) = if decide (k ∈ map fst d) then map fst d else map fst d ++ [k].
Proof.
  induction d as [|[k' v'] d IH].
  - destruct (decide (k ∈ map fst [])) as [H|H]; [by apply elem_of_nil in H|done].
  - cbn [dict_set map fst].
    destruct (decide (k = k')) as [->|Hne].
    + destruct (decide (k' ∈ k' :: map fst d)) as [H|H]; [done|].
      exfalso. apply H. constructor.
    + cbn [map fst]. rewrite IH.
      destruct (decide (k ∈ map fst d)) as [H|H];
        destruct (decide (k ∈ k' :: map fst d)) as [H'|H']; try done.
      * exfalso. apply H'. by constructor.
      * apply elem_of_cons in H' as [->|H']; done.
Qed.

Lemma dict_set_NoDup {V} k (v : V) d :
  NoDup (map fst d) → NoDup (map fst (dict_set k v d)).
Proof.
  intros Hd. rewrite dict_set_keys. case_decide as Hk; [done|].
  apply NoDup_app. split_and!; [done| |apply NoDup_singleton].
  intros x Hx ->%list_elem_of_singleton. done.
Qed.

Lemma dict_get_Some_elem {V} k (v : V) d : dict_get k d = Some v → (k, v) ∈ d.
Proof.
  induction d as [|[k' v'] d IH]; simpl; [done|].
  case_decide as Hk.
  - intros [= ->]. subst. constructor.
  - intros H. constructor. by apply IH.
Qed.

Lemma load_entry_instantiate reg entry :
  load_entry backend reg entry
  = match instantiate backend entry with
    | Some kv => dict_set kv.1 kv.2 reg
    | None => reg
    end.
Proof.
  destruct entry as [c|]; [|done]. simpl.
  destruct (negb _ || negb _); [done|].
  destruct (default true (cfg_enabled c)); [|done].
  destruct (PROVIDER_CLASSES backend _) as [cls|]; [|done].
  by destruct (cls _ c).
Qed.

Lemma load_entries_skip reg es1 bad es2 :
  instantiate backend bad = None →
  foldl (load_entry backend) reg (es1 ++ bad :: es2)
  = foldl (load_entry backend) reg (es1 ++ es2).
Proof.
  intros Hbad. rewrite !foldl_app. simpl.
  by rewrite (load_entry_instantiate _ bad), Hbad.
Qed.

Lemma load_file_entries file :
  _load_providers backend file
  = match configured_entries file with
    | Some entries => foldl (load_entry backend) [] entries
    | None => []
    end.
Proof.
  destruct file as [|e|[config|]]; try done. simpl.
  by destruct (config !! "providers") as [[entries|]|].
Qed.

(** Where the value under a key comes from after a run of the loop. *)
Lemma load_entries_get reg entries n p :
  dict_get n (foldl (load_entry backend) reg entries) = Some p →
  (∃ entry, entry ∈ entries ∧ instantiate backend entry = Some (n, p))
  ∨ dict_get n reg = Some p.
Proof.
  revert reg. induction entries as [|entry entries IH]; intros reg; simpl; [auto|].
  intros Hget. apply IH in Hget as [(e & He & Hi)|Hget].
  - left. exists e. split; [by constructor|done].
  - rewrite load_entry_instantiate in Hget.
    destruct (instantiate backend entry) as [[k v]|] eqn:Hi; [|auto]. simpl in Hget.
    destruct (decide (k = n)) as [->|Hne].
    + rewrite dict_get_set_eq in Hget. injection Hget as ->.
      left. exists entry. split; [constructor|done].
    + rewrite dict_get_set_ne in Hget by done. auto.
Qed.

Lemma load_entries_keep reg entries n :
  is_Some (dict_get n reg) →
  is_Some (dict_get n (foldl (load_entry backend) reg entries)).
Proof.
  revert reg. induction entries as [|entry entries IH]; intros reg Hn; simpl; [done|].
  apply IH. rewrite load_entry_instantiate.
  destruct (instantiate backend entry) as [[k v]|]; [|done]. simpl.
  destruct (decide (k = n)) as [->|Hne].
  - rewrite dict_get_set_eq. eauto.
  - by rewrite dict_get_set_ne.
Qed.

Lemma load_entries_put reg entries entry n p :
  entry ∈ entries → instantiate backend entry = Some (n, p) →
  is_Some (dict_get n (foldl (load_entry backend) reg entries)).
Proof.
  revert reg. induction entries as [|e entries IH]; intros reg Hin Hi.
  - by apply elem_of_nil in Hin.
  - simpl. apply elem_of_cons in Hin as [<-|Hin].
    + apply load_entries_keep. rewrite load_entry_instantiate, Hi. simpl.
      rewrite dict_get_set_eq. eauto.
    + by apply IH.
Qed.

Lemma load_entries_NoDup reg entries :
  NoDup (map fst reg) → NoDup (map fst (foldl (load_entry backend) reg entries)).
Proof.
  revert reg. induction entries as [|e entries IH]; intros reg Hreg; simpl; [done|].
  apply IH. rewrite load_entry_instantiate.
  destruct (instantiate backend e) as [[k v]|]; [|done]. by apply dict_set_NoDup.
Qed.

(** What it takes for an entry to be instantiated. *)
Lemma instantiate_Some entry n p :
  instantiate backend entry = Some (n, p) →
  ∃ c, entry = EntryDict c ∧ cfg_name c = Some n ∧ nonempty n = true ∧
       cfg_enabled c ≠ Some false ∧ config p = c ∧ name p = n ∧
       supports_streaming p = true ∧
       ((cfg_type c = Some "gemini" ∧
         GeminiProvider backend n c = inr p ∧
         truthy (getenv backend (default "GEMINI_API_KEY" (cfg_api_key_env c))) = true)
        ∨ (cfg_type c = Some "ollama" ∧
           OllamaProvider backend n c = inr p ∧
           truthy (getenv backend (default "OLLAMA_API_URL" (cfg_base_url_env c))) = true)).
Proof.
  destruct entry as [c|]; [|discriminate]. simpl.
  destruct (cfg_name c) as [n0|] eqn:Hn; simpl; [|discriminate].
  destruct (nonempty n0) eqn:Hn0; simpl; [|discriminate].
  destruct (cfg_type c) as [ty|] eqn:Hty; simpl; [|discriminate].
  destruct (nonempty ty) eqn:Hty0; simpl; [|discriminate].
  assert (Hen : default true (cfg_enabled c) = true → cfg_enabled c ≠ Some false).
  { by destruct (cfg_enabled c) as [[|]|]. }
  destruct (default true (cfg_enabled c)); [|discriminate].
  specialize (Hen eq_refl).
  unfold PROVIDER_CLASSES. repeat case_decide; [| |discriminate]; subst ty.
  - destruct (GeminiProvider backend n0 c) as [e|q] eqn:Hq; [discriminate|].
    intros [= <- <-]. exists c. pose proof Hq as Hq'.
    unfold GeminiProvider in Hq.
    destruct (truthy (getenv backend _)) eqn:Hkey; simpl in Hq; [|discriminate].
    destruct (genai_GenerativeModel backend _); [discriminate|].
    injection Hq as <-. simpl. split_and!; try done. by left.
  - destruct (OllamaProvider backend n0 c) as [e|q] eqn:Hq; [discriminate|].
    intros [= <- <-]. exists c. pose proof Hq as Hq'.
    unfold OllamaProvider in Hq.
    destruct (truthy (getenv backend _)) eqn:Hkey; simpl in Hq; [|discriminate].
    injection Hq as <-. simpl. split_and!; try done. by right.
Qed.

End Registry.

Section Loaded.
Context {W : Type} (backend : Backend W).
Implicit Types (file : YamlFile (option (gmap string ProvidersValue))).

Lemma loaded_get_origin file n p :
  get_provider (_load_providers backend file) n = Some p →
  ∃ entries entry,
    configured_entries file = Some entries ∧ entry ∈ entries ∧
    instantiate backend entry = Some (n, p).
Proof.
  unfold get_provider. rewrite load_file_entries.
  destruct (configured_entries file) as [entries|]; [|discriminate].
  intros [(entry & Hin & Hi)|Hget]%load_entries_get; [eauto|discriminate].
Qed.

(** X1: every provider found in a registry filled by [_load_providers] comes
    from a dictionary entry of the file that carries its name, is not
    disabled, is of type [gemini] or [ollama] and whose credential variable
    is set in the environment; the provider is stored under its own name,
    is enabled and supports streaming. *)
Theorem registered_provider_origin file n p :
  get_provider (_load_providers backend file) n = Some p →
  ∃ entries c,
    configured_entries file = Some entries ∧ EntryDict c ∈ entries ∧
    cfg_name c = Some n ∧ cfg_enabled c ≠ Some false ∧
    config p = c ∧ name p = n ∧ enabled p = true ∧ supports_streaming p = true ∧
    ((cfg_type c = Some "gemini" ∧
      truthy (getenv backend (default "GEMINI_API_KEY" (cfg_api_key_env c))) = true)
     ∨ (cfg_type c = Some "ollama" ∧
        truthy (getenv backend (default "OLLAMA_API_URL" (cfg_base_url_env c))) = true)).
Proof.
  intros (entries & entry & Hfile & Hin & Hi)%loaded_get_origin.
  apply instantiate_Some in Hi
    as (c & -> & Hn & _ & Hen & Hc & Hname & Hs & Hty).
  exists entries, c. split_and!; try done.
  - unfold enabled. rewrite Hc. by destruct (cfg_enabled c) as [[|]|].
  - destruct Hty as [(? & _ & ?)|(? & _ & ?)]; auto.
Qed.

(** X2: an entry that the loop can instantiate is registered whatever the
    other entries of the file are: its name is a key of the registry, bound
    to a provider of that name. *)
Theorem loadable_entry_is_registered file entries entry n p :
  configured_entries file = Some entries →
  entry ∈ entries →
  instantiate backend entry = Some (n, p) →
  ∃ p', get_provider (_load_providers backend file) n = Some p' ∧ name p' = n.
Proof.
  intros Hfile Hin Hi.
  destruct (load_entries_put backend [] entries entry n p Hin Hi) as [p' Hp'].
  exists p'. unfold get_provider. rewrite load_file_entries, Hfile.
  split; [done|].
  apply load_entries_get in Hp' as [(e & _ & He)|Hp']; [|discriminate].
  by apply instantiate_Some in He as (c & _ & _ & _ & _ & _ & Hname & _).
Qed.

(** X3: an entry that the loop skips - not a dictionary, without name or
    type, disabled, of an unknown type, or whose constructor raises - leaves
    the registry as if the entry were not in the file: the entries before
    and after it are loaded all the same. *)
Theorem skipped_entry_leaves_registry config es1 bad es2 :
  instantiate backend bad = None →
  _load_providers backend
    (FileParsed (Some (<["providers" := PVList (es1 ++ bad :: es2)]> config)))
  = _load_providers backend
      (FileParsed (Some (<["providers" := PVList (es1 ++ es2)]> config))).
Proof.
  intros Hbad. simpl. rewrite !lookup_insert_eq. by apply load_entries_skip.
Qed.

Lemma loaded_keys_NoDup file : NoDup (map fst (_load_providers backend file)).
Proof.
  rewrite load_file_entries. destruct (configured_entries file); [|constructor].
  apply load_entries_NoDup. constructor.
Qed.

Lemma candidate_registered (reg : list (string * Provider W)) seq p :
  p ∈ providers_to_try reg seq ∨ p ∈ providers_to_try_stream reg seq →
  ∃ n, n ∈ seq ∧ get_provider reg n = Some p.
Proof.
  unfold providers_to_try, providers_to_try_stream.
  intros [Hin|Hin]; apply list_elem_of_omap in Hin as (n & Hn & Hp);
    exists n; (split; [done|]);
    destruct (get_provider reg n) as [q|]; try discriminate.
  - destruct (enabled q); [|discriminate]. by injection Hp as ->.
  - destruct (enabled q && supports_streaming q); [|discriminate]. by injection Hp as ->.
Qed.

Lemma concrete_answer n c p prompt w r w' :
  GeminiProvider backend n c = inr p ∨ OllamaProvider backend n c = inr p →
  generate_async p prompt w = (inr r, w') →
  ∃ text, r = <["text" := text]> (<["provider" := n]> ∅).
Proof.
  intros [Hp|Hp].
  - unfold GeminiProvider in Hp. destruct (negb _); [discriminate|].
    destruct (genai_GenerativeModel backend _); [discriminate|].
    injection Hp as <-. simpl. unfold Gemini_generate_async.
    destruct (generate_content_async backend _ prompt w) as [[e|text] w1];
      [discriminate|]. intros [= <- _]. eauto.
  - unfold OllamaProvider in Hp. destruct (negb _); [discriminate|].
    injection Hp as <-. simpl. unfold Ollama_generate_async.
    destruct (httpx_post backend _ _ prompt w) as [[e|field] w1];
      [discriminate|]. intros [= <- _]. eauto.
Qed.

(** X4: with a registry filled by [_load_providers], whatever
    [route_request] returns is a dictionary of exactly two fields,
    [provider] and [text], and [provider] is the name of a registered
    provider listed for the task. *)
Theorem loaded_route_response file rules ctx prompt task st response st' :
  route_request rules (_load_providers backend file) ctx prompt task st
  = (inr response, st') →
  ∃ seq n p text,
    resolve rules task = Some seq ∧ n ∈ seq ∧
    get_provider (_load_providers backend file) n = Some p ∧
    response = <["text" := text]> (<["provider" := n]> ∅) ∧
    dom response = {["provider"; "text"]}.
Proof.
  unfold route_request, route_sequence.
  destruct (resolve rules task) as [[|n0 seq]|] eqn:Hres; [discriminate| |discriminate].
  destruct (providers_to_try _ (n0 :: seq)) as [|c cs] eqn:Hc; [discriminate|].
  destruct (failover_run ctx prompt (c :: cs) [] st)
    as (attempted & rest & es & w1 & Hsplit & _
        & [[_ ->]|(p & rest' & r & w2 & -> & Hgen & ->)]); [discriminate|].
  intros [= <- <-].
  assert (Hin : p ∈ providers_to_try (_load_providers backend file) (n0 :: seq)).
  { rewrite Hc, Hsplit. set_solver. }
  destruct (candidate_registered _ _ _ (or_introl Hin)) as (n & Hn & Hp).
  pose proof Hp as (entries & entry & _ & _ & Hi)%loaded_get_origin.
  apply instantiate_Some in Hi as (c0 & _ & _ & _ & _ & _ & Hname & _ & Hty).
  assert (Hshape : ∃ text, r = <["text" := text]> (<["provider" := n]> ∅)).
  { eapply concrete_answer; [|done]. destruct Hty as [(_ & ? & _)|(_ & ? & _)]; eauto. }
  destruct Hshape as [text ->].
  exists (n0 :: seq), n, p, text. rewrite Hname. split_and!; try done.
Qed.

(** X5: when the file offers nothing to load - it is missing, unreadable,
    empty, or has no [providers] list - the registry is empty; every request
    is then refused before any provider or the prompt hook is called, and
    the health report is empty. *)
Theorem nothing_to_load file rules ctx utcnow prompt task st :
  configured_entries file = None →
  _load_providers backend file = []
  ∧ (∃ e, route_request rules (_load_providers backend file) ctx prompt task st
          = (inl e, st))
  ∧ (∃ e, route_request_stream rules (_load_providers backend file) ctx prompt task st
          = (inl e, st))
  ∧ get_provider_statuses (_load_providers backend file) utcnow st
    = (inr {| summary := {| total_providers := 0; sm_enabled := 0;
                            sm_disabled := 0; sm_errors := 0 |};
              providers := [] |}, st).
Proof.
  intros Hfile. rewrite load_file_entries, Hfile. split_and!; [done| | |].
  - unfold route_request, route_sequence.
    destruct (resolve rules task) as [[|n seq]|]; try by eexists.
    assert (providers_to_try ([] : list (string * Provider W)) (n :: seq) = []) as ->.
    { unfold providers_to_try. generalize (n :: seq). by induction l. }
    by eexists.
  - unfold route_request_stream.
    destruct (resolve rules task) as [[|n seq]|]; try by eexists.
    assert (providers_to_try_stream ([] : list (string * Provider W)) (n :: seq) = []) as ->.
    { unfold providers_to_try_stream. generalize (n :: seq). by induction l. }
    by eexists.
  - rewrite get_provider_statuses_run. simpl. rewrite app_nil_r. by destruct st.
Qed.

End Loaded.

(** ** More on routing *)

Section MoreRouting.
Context {W : Type}.
Implicit Types (rules : gmap string (list string)) (reg : list (string * Provider W)).
Implicit Types (ctx : SystemContext.t) (st : State W).

(** X6: unless the file parses to a document with a [routing_rules] key,
    the rules in force are the built-in ones: every task type resolves to
    the two built-in provider names and no task type counts as routable;
    with such a key the rules are the configured table as it is, and a task
    type is routable exactly when it is a key of the table other than
    [__default__]. *)
Theorem routing_rules_fallback file task :
  match configured_rules file with
  | Some rules =>
      _load_routing_rules file = rules
      ∧ (task ∈ routable_tasks (_load_routing_rules file)
         ↔ is_Some (rules !! task) ∧ task ≠ "__default__")
  | None =>
      resolve (_load_routing_rules file) task
      = Some ["gemini-primary"; "ollama-failover"]
      ∧ routable_tasks (_load_routing_rules file) = ∅
  end.
Proof.
  assert (Hdefault :
    ∀ rules0 : gmap string (list string),
      rules0 = <["__default__" := ["gemini-primary"; "ollama-failover"]]> ∅ →
      resolve rules0 task = Some ["gemini-primary"; "ollama-failover"]
      ∧ routable_tasks rules0 = ∅).
  { intros rules0 ->. split.
    - unfold resolve. destruct (decide (task = "__default__")) as [->|Hne].
      + by rewrite lookup_insert_eq.
      + rewrite lookup_insert_ne, lookup_empty by done. by rewrite lookup_insert_eq.
    - unfold routable_tasks. rewrite dom_insert_L, dom_empty_L. set_solver. }
  destruct file as [|e|[config|]]; simpl; try by apply Hdefault.
  destruct (config !! "routing_rules") as [rules|]; [|by apply Hdefault].
  split; [done|]. unfold routable_tasks.
  rewrite elem_of_difference, elem_of_dom, not_elem_of_singleton. done.
Qed.

(** X7: [route_request] raises its [ValueError] exactly when the task type
    resolves to no sequence or to an empty one, and then nothing has been
    called: the state is as before. *)
Theorem route_request_unroutable rules reg ctx prompt task st :
  ((resolve rules task = None ∨ resolve rules task = Some []) →
   route_request rules reg ctx prompt task st = (inl (unroutable task), st))
  ∧ (∀ e st',
       route_request rules reg ctx prompt task st = (inl e, st') →
       exn_class e = ValueError →
       resolve rules task = None ∨ resolve rules task = Some []).
Proof.
  split.
  - unfold route_request, route_sequence. by intros [-> | ->].
  - intros e st'. unfold route_request, route_sequence.
    destruct (resolve rules task) as [[|n seq]|]; [auto| |auto].
    destruct (providers_to_try reg (n :: seq)) as [|c cs].
    + by intros [= <- _].
    + destruct (failover_run ctx prompt (c :: cs) [] st)
        as (attempted & rest & es & w1 & _ & _
            & [[_ ->]|(p & rest' & r & w2 & _ & _ & ->)]);
        [by intros [= <- _]|discriminate].
Qed.

Lemma providers_to_try_usable reg seq :
  providers_to_try reg (List.filter (usable reg) seq) = providers_to_try reg seq.
Proof.
  unfold providers_to_try, usable. induction seq as [|n seq IH]; [done|]. simpl.
  destruct (get_provider reg n) as [p|] eqn:Hp; simpl; [|apply IH].
  destruct (enabled p) eqn:Hen; simpl; [|apply IH].
  rewrite Hp, Hen. f_equal. apply IH.
Qed.

Lemma providers_to_try_nil reg seq :
  providers_to_try reg seq = [] ↔ List.filter (usable reg) seq = [].
Proof.
  unfold providers_to_try, usable. induction seq as [|n seq IH]; [done|]. simpl.
  destruct (get_provider reg n) as [p|]; simpl; [|apply IH].
  destruct (enabled p); [done|apply IH].
Qed.

(** X8: the names of a sequence that are not registered, or whose provider
    is disabled, are passed over without any call: [route_request] behaves on
    the sequence as on its usable names alone; and when a non-empty sequence
    has no usable name, it raises [NoAvailableProviderError] before anything
    is called. *)
Theorem unusable_names_are_skipped reg ctx prompt task seq st :
  (List.filter (usable reg) seq ≠ [] →
   route_sequence reg ctx (Some seq) prompt task st
   = route_sequence reg ctx (Some (List.filter (usable reg) seq)) prompt task st)
  ∧ (seq ≠ [] → List.filter (usable reg) seq = [] →
     route_sequence reg ctx (Some seq) prompt task st
     = (inl (mkExn NoAvailableProviderError
               "No enabled LLM providers found in configuration for the requested task."),
        st)).
Proof.
  split.
  - intros Hne. unfold route_sequence.
    destruct (List.filter (usable reg) seq) as [|m ms] eqn:Hf; [done|].
    destruct seq as [|n seq]; [done|].
    by rewrite <- Hf, providers_to_try_usable.
  - intros Hseq Hnone. unfold route_sequence.
    destruct seq as [|n seq]; [done|].
    apply providers_to_try_nil in Hnone. by rewrite Hnone.
Qed.

(** X9: when the streams of all candidates raise, [route_request_stream]
    raises [NoAvailableProviderError] after the last of them; its message
    lists one reason per candidate, in the order of the attempts, and the
    chunks that the candidates yielded before raising have all been handed
    to the consumer. *)
Theorem route_request_stream_all_fail rules reg ctx prompt task seq rs st w1 :
  let full := SystemContext.get_system_prompt ctx prompt in
  let candidates := providers_to_try_stream reg seq in
  resolve rules task = Some seq →
  candidates ≠ [] →
  stream_failures full candidates (world st) = Some (rs, w1) →
  length (stream_reasons candidates rs) = length candidates
  ∧ route_request_stream rules reg ctx prompt task st
    = (inl (mkExn NoAvailableProviderError
              ("All streaming providers failed. Errors: "
                 +:+ join "; " (stream_reasons candidates rs))),
       mkState w1 (trace st ++ stream_events prompt full (zip candidates rs.*1))).
Proof.
  intros full candidates Hres Hne Hfail. split.
  - unfold stream_reasons. rewrite length_zip_with_l_eq; [done|].
    symmetry. by eapply stream_failures_length.
  - destruct candidates as [|c cs] eqn:Hc; [done|].
    rewrite (route_request_stream_candidates _ _ _ _ _ _ _ _ Hres Hc).
    rewrite <- (app_nil_r (c :: cs)) at 1.
    by rewrite (failover_stream_skips _ _ _ _ _ _ _ _ Hfail).
Qed.

Lemma providers_to_try_stream_sublist reg seq :
  providers_to_try_stream reg seq `sublist_of` providers_to_try reg seq.
Proof.
  unfold providers_to_try, providers_to_try_stream.
  induction seq as [|n seq IH]; [done|]. simpl.
  destruct (get_provider reg n) as [p|]; simpl; [|done].
  destruct (enabled p); simpl; [|done].
  destruct (supports_streaming p); simpl; [by constructor|by apply sublist_cons].
Qed.

(** X10: the candidates of the streaming call are a sublist, in the same
    order, of the candidates of the blocking call, and the two lists are the
    same when every registered provider supports streaming. *)
Theorem stream_candidates_among_candidates reg seq :
  providers_to_try_stream reg seq `sublist_of` providers_to_try reg seq
  ∧ (Forall (λ kv, supports_streaming kv.2 = true) reg →
     providers_to_try_stream reg seq = providers_to_try reg seq).
Proof.
  split; [apply providers_to_try_stream_sublist|].
  intros Hall. unfold providers_to_try, providers_to_try_stream.
  induction seq as [|n seq IH]; [done|]. simpl.
  destruct (get_provider reg n) as [p|] eqn:Hp; [|apply IH].
  apply dict_get_Some_elem in Hp. rewrite Forall_forall in Hall.
  apply Hall in Hp. simpl in Hp. rewrite Hp, andb_true_r.
  destruct (enabled p); [f_equal|]; apply IH.
Qed.

End MoreRouting.

(** ** More on streaming *)

Section MoreStreaming.
Context {W : Type}.
Implicit Types (rules : gmap string (list string)) (reg : list (string * Provider W)).
Implicit Types (ctx : SystemContext.t) (st : State W).
Implicit Types (runs : list (Provider W * list (gmap string string))).

Lemma yielded_app t1 t2 : yielded (t1 ++ t2) = yielded t1 ++ yielded t2.
Proof. apply omap_app. Qed.

Lemma yielded_forwarded (who : string) (chunks : list (gmap string string)) :
  yielded (map (λ chunk, EvYield (<["provider" := who]> chunk)) chunks)
  = map (λ chunk, <["provider" := who]> chunk) chunks.
Proof. induction chunks as [|c cs IH]; [done|]. simpl. by rewrite <- IH. Qed.

Lemma yielded_stream_events prompt full runs :
  yielded (stream_events prompt full runs)
  = flat_map (λ run, map (λ chunk, <["provider" := name run.1]> chunk) run.2) runs.
Proof.
  induction runs as [|[p cs] runs IH]; [done|].
  unfold stream_events in *. simpl.
  change (yielded (map (λ chunk, EvYield (<["provider" := name p]> chunk)) cs
                     ++ flat_map (stream_attempt prompt full) runs)
          = map (λ chunk, <["provider" := name p]> chunk) cs
              ++ flat_map (λ run, map (λ chunk, <["provider" := name run.1]> chunk) run.2)
                   runs).
  by rewrite yielded_app, yielded_forwarded, IH.
Qed.

Lemma streamed_stream_events prompt full runs :
  streamed (stream_events prompt full runs) = map (λ run, name run.1) runs.
Proof.
  induction runs as [|[p cs] runs IH]; [done|].
  unfold stream_events, streamed in *. simpl. rewrite omap_app, IH.
  assert (omap (λ ev, match ev with EvStream n _ => Some n | _ => None end)
               (map (λ chunk, EvYield (<["provider" := name p]> chunk)) cs) = []) as ->.
  { by induction cs. }
  done.
Qed.

Lemma stream_failures_runs full ps (w w1 : W) rs :
  stream_failures full ps w = Some (rs, w1) →
  Forall (run_of full ps) (zip ps rs.*1).
Proof.
  revert w rs. induction ps as [|p ps IH]; intros w rs; simpl.
  - intros [= <- _]. constructor.
  - destruct (generate_stream_async p full w) as [[chunks [e|]] w'] eqn:E; [|discriminate].
    destruct (stream_failures full ps w') as [[rs' w2]|] eqn:F; [|discriminate].
    intros [= <- <-]. simpl. constructor.
    + split; [constructor|]. exists w. simpl. by rewrite E.
    + eapply Forall_impl; [by eapply IH|].
      intros run [Hin Hw]. split; [by constructor|done].
Qed.

Lemma runs_yield_annotated full ps runs :
  Forall (run_of full ps) runs →
  Forall (λ c, ∃ p c0 w,
            p ∈ ps ∧ c0 ∈ (generate_stream_async p full w).1.1 ∧
            c = <["provider" := name p]> c0)
         (flat_map (λ run, map (λ chunk, <["provider" := name run.1]> chunk) run.2) runs).
Proof.
  induction 1 as [|[p cs] runs [Hin [w Hw]] _ IH]; simpl; [constructor|].
  apply Forall_app. split; [|done]. simpl in *.
  apply Forall_forall. intros c (c0 & -> & Hc0)%list_elem_of_fmap.
  exists p, c0, w. by rewrite <- Hw.
Qed.

(** X11: every chunk that [route_request_stream] hands to the consumer is a
    chunk of the stream of one of the streaming candidates of the task, with
    [provider] set to the name of that candidate and every other field as
    the provider yielded it. *)
Theorem yielded_chunks_carry_provider rules reg ctx prompt task st :
  let full := SystemContext.get_system_prompt ctx prompt in
  let candidates := default [] (providers_to_try_stream reg <$> resolve rules task) in
  ∃ new,
    trace (route_request_stream rules reg ctx prompt task st).2 = trace st ++ new ∧
    Forall (λ c, ∃ p c0 w,
              p ∈ candidates ∧ c0 ∈ (generate_stream_async p full w).1.1 ∧
              c = <["provider" := name p]> c0 ∧
              c !! "provider" = Some (name p) ∧
              ∀ k, k ≠ "provider" → c !! k = c0 !! k)
           (yielded new).
Proof.
  intros full candidates.
  assert (Hweaken : ∀ (ps : list (Provider W)) l,
    Forall (λ c, ∃ p c0 w, p ∈ ps ∧ c0 ∈ (generate_stream_async p full w).1.1 ∧
                           c = <["provider" := name p]> c0) l →
    Forall (λ c, ∃ p c0 w, p ∈ ps ∧ c0 ∈ (generate_stream_async p full w).1.1 ∧
                           c = <["provider" := name p]> c0 ∧
                           c !! "provider" = Some (name p) ∧
                           ∀ k, k ≠ "provider" → c !! k = c0 !! k) l).
  { intros ps l Hl. eapply Forall_impl; [exact Hl|].
    intros c (p & c0 & w & Hp & Hc0 & ->).
    exists p, c0, w. split_and!; try done.
    - by rewrite lookup_insert_eq.
    - intros k Hk. by rewrite lookup_insert_ne. }
  unfold route_request_stream, candidates.
  destruct (resolve rules task) as [[|n seq]|];
    try (exists []; split; [by rewrite app_nil_r|constructor]).
  change (default [] (providers_to_try_stream reg <$> Some (n :: seq)))
    with (providers_to_try_stream reg (n :: seq)).
  destruct (providers_to_try_stream reg (n :: seq)) as [|c cs] eqn:Hc;
    [exists []; split; [by rewrite app_nil_r|constructor]|].
  destruct (failover_stream_run ctx prompt (c :: cs) [] st)
    as (attempted & rest & rs & w1 & Hsplit & Hf
        & [[_ ->]|(p & rest' & chunks & w2 & -> & Hend & ->)]).
  - eexists. split; [done|]. rewrite yielded_stream_events.
    apply Hweaken. rewrite Hsplit.
    apply runs_yield_annotated. eapply Forall_impl; [by eapply stream_failures_runs|].
    intros run [Hin Hw]. split; [|done]. apply elem_of_app. by left.
  - eexists. split; [done|]. rewrite yielded_stream_events.
    apply Hweaken. rewrite Hsplit.
    apply runs_yield_annotated. apply Forall_app. split.
    + eapply Forall_impl; [by eapply stream_failures_runs|].
      intros run [Hin Hw]. split; [|done]. apply elem_of_app. by left.
    + constructor; [|constructor]. split; simpl.
      * apply elem_of_app. right. constructor.
      * exists w1. fold full in Hend. by rewrite Hend.
Qed.

Lemma loaded_candidate_stream_ends (backend : Backend W) file seq p :
  p ∈ providers_to_try_stream (_load_providers backend file) seq →
  stream_never_raises p.
Proof.
  intros Hin.
  destruct (candidate_registered _ _ _ (or_intror Hin)) as (n & _ & Hget).
  apply dict_get_Some_elem in Hget.
  pose proof (loaded_registry_ok backend file) as Hall.
  rewrite Forall_forall in Hall. by apply Hall in Hget as (_ & _ & _ & ?).
Qed.

(** What a streaming call adds to the trace. *)
Lemma route_request_stream_trace rules reg ctx prompt task st :
  ∃ runs,
    trace (route_request_stream rules reg ctx prompt task st).2
    = trace st ++ stream_events prompt (SystemContext.get_system_prompt ctx prompt) runs.
Proof.
  unfold route_request_stream.
  destruct (resolve rules task) as [[|n seq]|];
    try (exists []; by rewrite app_nil_r).
  destruct (providers_to_try_stream reg (n :: seq)) as [|c cs];
    [exists []; by rewrite app_nil_r|].
  destruct (failover_stream_run ctx prompt (c :: cs) [] st)
    as (attempted & rest & rs & w1 & _ & _
        & [[_ ->]|(p & rest' & chunks & w2 & _ & _ & ->)]); by eexists.
Qed.

(** X12: with a registry filled by [_load_providers], a streaming request
    that has candidates never fails over and never raises: the stream of the
    first candidate ends without raising whatever its backend does, so the
    first candidate is the only provider called and the call returns. *)
Theorem loaded_stream_commits_to_first (backend : Backend W) file rules ctx prompt task st
    p ps :
  let reg := _load_providers backend file in
  let full := SystemContext.get_system_prompt ctx prompt in
  default [] (providers_to_try_stream reg <$> resolve rules task) = p :: ps →
  ∃ chunks w',
    generate_stream_async p full (world st) = ((chunks, None), w') ∧
    route_request_stream rules reg ctx prompt task st
    = (inr (), mkState w' (trace st ++ stream_attempt prompt full (p, chunks))) ∧
    streamed (stream_attempt prompt full (p, chunks)) = [name p].
Proof.
  intros reg full Hcands.
  destruct (resolve rules task) as [seq|] eqn:Hres; [|discriminate].
  simpl in Hcands.
  assert (Hp : stream_never_raises p).
  { eapply loaded_candidate_stream_ends. unfold reg in Hcands. rewrite Hcands. constructor. }
  specialize (Hp full (world st)).
  destruct (generate_stream_async p full (world st)) as [[chunks failure] w'] eqn:E.
  simpl in Hp. subst failure. exists chunks, w'. split_and!; [done| |].
  - rewrite (route_request_stream_candidates _ _ _ _ _ _ _ _ Hres Hcands).
    by apply failover_stream_step_end.
  - pose proof (streamed_stream_events prompt full [(p, chunks)]) as Hs.
    unfold stream_events in Hs. simpl in Hs. by rewrite app_nil_r in Hs.
Qed.






End MoreStreaming.


(** ** More on the health report *)

Section MoreHealth.
Context {W : Type}.
Implicit Types (reg : list (string * Provider W)) (ps : list (Provider W)).
Implicit Types (st : State W) (utcnow : W → string).

Lemma records_of_length utcnow reg (w : W) :
  length (records_of utcnow reg w) = length reg.
Proof.
  unfold records_of. rewrite length_app, length_zip_with, length_map.
  rewrite probe_outcomes_length, Nat.min_id.
  rewrite <- length_app, (filter_partition enabled (dict_values reg)).
  unfold dict_values. by rewrite length_map.
Qed.

Lemma records_of_names utcnow reg (w : W) :
  map sr_name (records_of utcnow reg w)
  = map name (List.filter enabled (dict_values reg))
      ++ map name (List.filter (λ p, negb (enabled p)) (dict_values reg)).
Proof.
  unfold records_of. rewrite map_app, map_map. simpl.
  by rewrite enabled_records_names by apply probe_outcomes_length.
Qed.

Lemma disabled_records_no_error (ts : string) ps :
  List.filter is_error (map (λ p, disabled_record p ts) ps) = [].
Proof. by induction ps. Qed.

(** X13: the summary of a health report agrees with the registry and with
    the list of records: [total_providers] is the number of registered
    providers and of records, it is the sum of [enabled] and [disabled], and
    [errors] never exceeds [enabled]. *)
Theorem summary_consistent reg utcnow st :
  ∃ report st',
    get_provider_statuses reg utcnow st = (inr report, st') ∧
    total_providers (summary report) = length reg ∧
    length (providers report) = total_providers (summary report) ∧
    total_providers (summary report)
    = sm_enabled (summary report) + sm_disabled (summary report) ∧
    sm_errors (summary report) ≤ sm_enabled (summary report).
Proof.
  eexists _, _. split; [apply get_provider_statuses_run|]. simpl.
  split_and!; [done|apply records_of_length| |].
  - rewrite <- length_app, (filter_partition enabled (dict_values reg)).
    unfold dict_values. by rewrite length_map.
  - unfold records_of. rewrite List.filter_app, disabled_records_no_error, app_nil_r.
    etrans; [apply List.filter_length_le|].
    rewrite length_zip_with, probe_outcomes_length. lia.
Qed.

(** X14: the report lists the enabled providers first, in the order of the
    registry, and the disabled ones after them; the probes made are one per
    enabled provider, in that order, and none for a disabled provider. *)
Theorem report_order_and_probes reg utcnow st :
  let enabled_providers := List.filter enabled (dict_values reg) in
  let disabled_providers := List.filter (λ p, negb (enabled p)) (dict_values reg) in
  ∃ report st',
    get_provider_statuses reg utcnow st = (inr report, st') ∧
    map sr_name (providers report)
    = map name enabled_providers ++ map name disabled_providers ∧
    Forall (λ r, sr_status r = "Disabled")
           (drop (length enabled_providers) (providers report)) ∧
    trace st' = trace st ++ map (λ p, EvCheckHealth (name p)) enabled_providers.
Proof.
  intros enabled_providers disabled_providers.
  eexists _, _. split; [apply get_provider_statuses_run|]. simpl.
  split_and!; [apply records_of_names| |done].
  unfold records_of. rewrite drop_app_length'.
  - apply Forall_forall. by intros r (p & -> & _)%list_elem_of_fmap.
  - rewrite length_zip_with, probe_outcomes_length. by rewrite Nat.min_id.
Qed.

(** X15: the health report of a registry filled by [_load_providers] has no
    disabled provider and no [Unknown] or [Disabled] record: every record
    has status [Active], [Offline] or [Error]; the records carry the keys of
    the registry, in order and without repetition. *)
Theorem loaded_health_report (backend : Backend W) file utcnow st :
  let reg := _load_providers backend file in
  ∃ report st',
    get_provider_statuses reg utcnow st = (inr report, st') ∧
    sm_disabled (summary report) = 0 ∧
    sm_enabled (summary report) = total_providers (summary report) ∧
    map sr_name (providers report) = map fst reg ∧
    NoDup (map sr_name (providers report)) ∧
    Forall (λ r, sr_status r ∈ ["Active"; "Offline"; "Error"]) (providers report).
Proof.
  intros reg.
  pose proof (loaded_registry_ok backend file) as Hok. fold reg in Hok.
  assert (Hen : List.filter enabled (dict_values reg) = dict_values reg).
  { clear -Hok. induction Hok as [|[k p] l (_ & Hp & _) _ IH]; [done|].
    simpl in *. by rewrite Hp, IH. }
  assert (Hdis : List.filter (λ p, negb (enabled p)) (dict_values reg) = []).
  { clear -Hok. induction Hok as [|[k p] l (_ & Hp & _) _ IH]; [done|].
    simpl in *. by rewrite Hp. }
  assert (Hnames : map name (dict_values reg) = map fst reg).
  { clear -Hok. induction Hok as [|[k p] l (Hp & _) _ IH]; [done|].
    simpl in *. by rewrite Hp, IH. }
  eexists _, _. split; [apply get_provider_statuses_run|]. simpl.
  rewrite Hdis, Hen. split_and!; [done| | | |].
  - unfold dict_values. by rewrite length_map.
  - by rewrite records_of_names, Hen, Hdis, app_nil_r.
  - rewrite records_of_names, Hen, Hdis, app_nil_r, Hnames.
    apply loaded_keys_NoDup.
  - apply Forall_lookup. intros i r Hr.
    unfold records_of in Hr. rewrite Hdis, Hen in Hr. simpl in Hr.
    rewrite app_nil_r in Hr.
    apply lookup_zip_with_Some in Hr as (p & o & -> & Hp & Ho).
    destruct (probe_outcomes_lookup _ _ _ _ _ Hp Ho) as (w0 & w1 & Hprobe).
    assert (Hin : p ∈ dict_values reg) by (by eapply list_elem_of_lookup_2).
    unfold dict_values in Hin. apply list_elem_of_fmap in Hin as ([k q] & -> & Hkq).
    rewrite Forall_forall in Hok. apply Hok in Hkq as (_ & _ & Hdom & _).
    simpl in Hdom, Hprobe. destruct (Hdom w0) as (s & d & w' & Hh & Hs).
    rewrite Hh in Hprobe. injection Hprobe as <- <-. simpl.
    by rewrite health_status.
Qed.

End MoreHealth.

(** ** The prompt decoration *)

Lemma append_assoc (a b c : string) : (a +:+ b) +:+ c = a +:+ (b +:+ c).
Proof.
  induction a as [|x a IH]; [done|].
  change (String x ((a +:+ b) +:+ c) = String x (a +:+ (b +:+ c))).
  by rewrite IH.
Qed.

(** X16: [get_system_prompt] only ever puts a preamble in front of the
    prompt: the preamble depends on the identity data alone and the prompt
    of the user follows it unchanged.  In terms of the keys of
    [identity.yaml], the preamble is empty, so that the prompt passes
    through as it is, exactly when [business_name] or [industry] is missing
    or empty, or [system_name] is present and empty; a missing
    [system_name] does not empty it, as the name then defaults to
    [Praximous-Unconfigured]. *)
Theorem get_system_prompt_prepends ctx user_prompt :
  let identity := SystemContext._identity_data ctx in
  SystemContext.get_system_prompt ctx user_prompt
  = SystemContext.get_system_prompt ctx EmptyString +:+ user_prompt
  ∧ (SystemContext.get_system_prompt ctx EmptyString = EmptyString
     ↔ identity !! "system_name" = Some EmptyString
       ∨ truthy (identity !! "business_name") = false
       ∨ truthy (identity !! "industry") = false).
Proof.
  intros identity. unfold SystemContext.get_system_prompt.
  assert (Hname : truthy (SystemContext.system_name ctx) = false
                  ↔ identity !! "system_name" = Some EmptyString).
  { unfold SystemContext.system_name. fold identity.
    destruct (identity !! "system_name") as [[|a s]|]; simpl; split;
      congruence. }
  unfold SystemContext.business_name, SystemContext.industry in *.
  fold identity.
  destruct (truthy (SystemContext.system_name ctx)) eqn:Hs;
    destruct (truthy (identity !! "business_name")) eqn:Hb;
    destruct (truthy (identity !! "industry")) eqn:Hi; simpl;
    try (split; [done|]; split; [intros _|done]; tauto).
  cbv zeta. split; [by rewrite !append_assoc|].
  split; [done|]. intros [H|[H|H]]; [|done..].
  apply Hname in H. discriminate.
Qed.

(** ** The required credentials *)

Section Credentials.
Context {W : Type}.
Implicit Types (file : YamlFile (option (gmap string ProvidersValue))).

Lemma dict_set_key_elem {V} x k (v : V) d :
  x ∈ map fst (dict_set k v d) ↔ x = k ∨ x ∈ map fst d.
Proof.
  rewrite dict_set_keys. case_decide as Hk.
  - split; [auto|]. by intros [->|?].
  - rewrite elem_of_app, list_elem_of_singleton. tauto.
Qed.

Lemma cond_set_keys (o : option string) (label : string) acc v :
  v ∈ map fst (if truthy o then dict_set (default EmptyString o) label acc else acc)
  ↔ v ∈ map fst acc ∨ (o = Some v ∧ nonempty v = true).
Proof.
  destruct o as [a|]; simpl.
  - destruct (nonempty a) eqn:Ha.
    + rewrite dict_set_key_elem. split.
      * intros [->|?]; [by right|by left].
      * intros [?|[[= ->] _]]; [by right|by left].
    + split; [by left|]. intros [?|[[= ->] Hv]]; [done|congruence].
  - split; [by left|]. by intros [?|[? _]].
Qed.

Lemma required_of_entry_keys acc entry v :
  v ∈ map fst (required_of_entry acc entry)
  ↔ v ∈ map fst acc
    ∨ ∃ c, entry = EntryDict c ∧ nonempty v = true ∧
           (cfg_api_key_env c = Some v ∨ cfg_base_url_env c = Some v).
Proof.
  destruct entry as [c|]; simpl.
  - rewrite !cond_set_keys. split.
    + intros [[?|[? ?]]|[? ?]]; [by left| |]; right; exists c; auto.
    + intros [?|(c' & [= <-] & ? & [?|?])]; auto.
  - split; [by left|]. by intros [?|(c & ? & _)].
Qed.

Lemma required_keys acc entries v :
  v ∈ map fst (foldl required_of_entry acc entries)
  ↔ v ∈ map fst acc
    ∨ ∃ c, EntryDict c ∈ entries ∧ nonempty v = true ∧
           (cfg_api_key_env c = Some v ∨ cfg_base_url_env c = Some v).
Proof.
  revert acc. induction entries as [|entry entries IH]; intros acc; simpl.
  - split; [auto|]. intros [?|(c & Hin & _)]; [done|]. by apply elem_of_nil in Hin.
  - rewrite IH, required_of_entry_keys. split.
    + intros [[?|(c & -> & ? & ?)]|(c & Hin & ? & ?)]; [auto| |].
      * right. exists c. split; [constructor|done].
      * right. exists c. split; [by constructor|done].
    + intros [?|(c & Hin & ? & ?)]; [auto|].
      apply elem_of_cons in Hin as [<-|Hin]; [left; right; eauto|right; eauto].
Qed.

Lemma required_NoDup acc entries :
  NoDup (map fst acc) → NoDup (map fst (foldl required_of_entry acc entries)).
Proof.
  revert acc. induction entries as [|entry entries IH]; intros acc Hacc; [done|].
  simpl. apply IH. destruct entry as [c|]; [|done]. simpl.
  destruct (truthy (cfg_api_key_env c)); destruct (truthy (cfg_base_url_env c));
    repeat apply dict_set_NoDup; done.
Qed.

Lemma required_file_entries file :
  get_required_credentials_from_config file
  = match configured_entries file with
    | Some entries => foldl required_of_entry [] entries
    | None => []
    end.
Proof.
  destruct file as [|e|[config|]]; try done. simpl.
  by destruct (config !! "providers") as [[entries|]|].
Qed.

Lemma missing_credentials_elem (environ : gmap string string) file v :
  v ∈ get_missing_provider_credentials environ file
  ↔ truthy (environ !! v) = false
    ∧ ∃ entries c,
        configured_entries file = Some entries ∧ EntryDict c ∈ entries ∧
        nonempty v = true ∧
        (cfg_api_key_env c = Some v ∨ cfg_base_url_env c = Some v).
Proof.
  unfold get_missing_provider_credentials. rewrite required_file_entries.
  rewrite list_elem_of_In, List.filter_In, <- list_elem_of_In, negb_true_iff.
  destruct (configured_entries file) as [entries|].
  - rewrite required_keys. split.
    + intros [[Hnil|(c & ? & ? & ?)] ?]; [by apply elem_of_nil in Hnil|].
      split; [done|]. by exists entries, c.
    + intros [? (es & c & [= <-] & ? & ? & ?)]. split; [|done]. right. eauto.
  - split.
    + intros [Hnil _]. by apply elem_of_nil in Hnil.
    + by intros [_ (es & c & ? & _)].
Qed.

(** X17: [get_missing_provider_credentials] lists, each once, exactly the
    variables that some dictionary entry of the file names under
    [api_key_env] or [base_url_env] with a non-empty name and that are unset
    or empty in the environment; whether the entry is enabled plays no
    part. *)
Theorem missing_credentials_spec (environ : gmap string string) file v :
  NoDup (get_missing_provider_credentials environ file)
  ∧ (v ∈ get_missing_provider_credentials environ file
     ↔ truthy (environ !! v) = false
       ∧ ∃ entries c,
           configured_entries file = Some entries ∧ EntryDict c ∈ entries ∧
           nonempty v = true ∧
           (cfg_api_key_env c = Some v ∨ cfg_base_url_env c = Some v)).
Proof.
  split; [|apply missing_credentials_elem].
  unfold get_missing_provider_credentials. rewrite required_file_entries.
  apply NoDup_ListNoDup, List.NoDup_filter, NoDup_ListNoDup.
  destruct (configured_entries file); [|constructor].
  apply required_NoDup. constructor.
Qed.

(** X18: when [get_missing_provider_credentials] finds nothing missing, an
    entry with a name, not disabled, that names its credential variable
    itself is registered by [_load_providers]: an [ollama] entry always, a
    [gemini] entry when the Gemini client accepts its model. *)
Theorem no_missing_credentials_suffice (backend : Backend W) file entries c n :
  get_missing_provider_credentials (environ backend) file = [] →
  configured_entries file = Some entries →
  EntryDict c ∈ entries →
  cfg_name c = Some n → nonempty n = true →
  cfg_enabled c ≠ Some false →
  (cfg_type c = Some "ollama" ∧ truthy (cfg_base_url_env c) = true)
  ∨ (cfg_type c = Some "gemini" ∧ truthy (cfg_api_key_env c) = true ∧
     genai_GenerativeModel backend (default "gemini-1.5-flash-latest" (cfg_model c))
     = None) →
  ∃ p, get_provider (_load_providers backend file) n = Some p ∧ name p = n.
Proof.
  intros Hmissing Hfile Hin Hn Hn0 Hen Hty.
  assert (Hset : ∀ v, nonempty v = true →
                      cfg_api_key_env c = Some v ∨ cfg_base_url_env c = Some v →
                      truthy (getenv backend v) = true).
  { intros v Hv Hc. unfold getenv.
    destruct (truthy (environ backend !! v)) eqn:Hunset; [done|]. exfalso.
    assert (Hv' : v ∈ get_missing_provider_credentials (environ backend) file).
    { apply missing_credentials_elem. split; [done|]. by exists entries, c. }
    rewrite Hmissing in Hv'. by apply elem_of_nil in Hv'. }
  assert (Hon : default true (cfg_enabled c) = true).
  { by destruct (cfg_enabled c) as [[|]|]. }
  assert (Hinst : ∃ p, instantiate backend (EntryDict c) = Some (n, p)).
  { simpl. rewrite Hn. simpl. rewrite Hn0, Hon. simpl.
    destruct Hty as [[Hty Hvar]|(Hty & Hvar & Hinit)]; rewrite Hty; simpl.
    - unfold PROVIDER_CLASSES. repeat case_decide; try done.
      unfold OllamaProvider.
      destruct (cfg_base_url_env c) as [v|] eqn:Hv; [|done]. simpl in *.
      rewrite (Hset v) by auto. simpl. eauto.
    - unfold PROVIDER_CLASSES. repeat case_decide; try done.
      unfold GeminiProvider.
      destruct (cfg_api_key_env c) as [v|] eqn:Hv; [|done]. simpl in *.
      rewrite (Hset v) by auto. simpl. rewrite Hinit. eauto. }
  destruct Hinst as [p Hp].
  assert (Hc : EntryDict c ∈ entries) by done.
  destruct (load_entries_put backend [] entries _ n p Hc Hp) as [p' Hp'].
  exists p'. unfold get_provider. rewrite load_file_entries, Hfile.
  split; [done|].
  apply load_entries_get in Hp' as [(e & _ & He)|Hp']; [|discriminate].
  by apply instantiate_Some in He as (c' & _ & _ & _ & _ & _ & Hname & _).
Qed.

End Credentials.

(** ** The endpoints of api/server.py *)

Section Endpoints.
Context {W : Type}.
Implicit Types (rules : gmap string (list string)) (reg : list (string * Provider W)).
Implicit Types (ctx : SystemContext.t) (st : State W).

Lemma route_request_outcomes rules reg ctx prompt task st entry :
  rules !! task = Some entry →
  (entry = [] ∧
   route_request rules reg ctx prompt task st = (inl (unroutable task), st))
  ∨ (entry ≠ [] ∧ ∃ e st',
       route_request rules reg ctx prompt task st = (inl e, st') ∧
       exn_class e = NoAvailableProviderError)
  ∨ (entry ≠ [] ∧ ∃ response st' n,
       route_request rules reg ctx prompt task st = (inr response, st') ∧
       response !! "provider" = Some n).
Proof.
  intros Hentry. unfold route_request.
  rewrite (explicit_entry_resolves _ _ _ Hentry). unfold route_sequence.
  destruct entry as [|n seq]; [by left|]. right.
  destruct (providers_to_try reg (n :: seq)) as [|c cs].
  { left. split; [done|]. by eexists _, _. }
  destruct (failover_run ctx prompt (c :: cs) [] st)
    as (attempted & rest & es & w1 & _ & _
        & [[_ ->]|(p & rest' & r & w2 & _ & _ & ->)]).
  - left. split; [done|]. by eexists _, _.
  - right. split; [done|]. eexists _, _, (name p). split; [done|].
    by rewrite lookup_insert_eq.
Qed.

(** X19: for a task type that is a key of the routing rules, [process_task]
    answers in one of three ways and writes one audit record that agrees
    with its answer.  When the router returns a response, the answer is a
    success carrying that response, its message names the provider found in
    the response, and the record says [success] with that provider.  When
    the router raises [NoAvailableProviderError], the answer is a 503 and
    the record says [error] with provider [failover_exhausted].  When the
    entry of the task type is empty, the answer is a 500, nothing was
    called, and the record says [error] without a provider. *)
Theorem process_task_llm_path rules reg ctx (uuid4 : W → string)
    (latency_ms : W → W → Z) skill_path request sst entry :
  let task := rq_task_type request in
  let prompt := rq_prompt request in
  let request_id := uuid4 (world (router sst)) in
  rules !! task = Some entry →
  ∃ reply st' ia,
    process_task rules reg ctx uuid4 latency_ms skill_path request sst
    = (reply, mkServerState st' (audit_log sst ++ [ia])) ∧
    ia_request_id ia = request_id ∧ ia_task_type ia = task ∧ ia_prompt ia = prompt ∧
    ((∃ response n,
        route_request rules reg ctx prompt task (router sst) = (inr response, st') ∧
        response !! "provider" = Some n ∧
        reply = Returned {| rs_status := "success";
                            rs_result := Some response;
                            rs_message := Some ("Request routed via " +:+ n);
                            rs_details := None;
                            rs_request_id := request_id |} ∧
        ia_status ia = "success" ∧ ia_provider ia = Some n ∧
        ia_response_data ia = Some response)
     ∨ (∃ e,
          route_request rules reg ctx prompt task (router sst) = (inl e, st') ∧
          exn_class e = NoAvailableProviderError ∧ entry ≠ [] ∧
          reply = HTTPException 503 "All LLM providers are currently unavailable." ∧
          ia_status ia = "error" ∧ ia_provider ia = Some "failover_exhausted" ∧
          ia_response_data ia = Some ∅)
     ∨ (entry = [] ∧ st' = router sst ∧
        reply = HTTPException 500 "An unexpected error occurred during LLM routing." ∧
        ia_status ia = "error" ∧ ia_provider ia = None ∧
        ia_response_data ia = Some ∅)).
Proof.
  intros task prompt request_id Hentry. unfold process_task.
  fold task prompt. rewrite Hentry.
  destruct (route_request_outcomes rules reg ctx prompt task (router sst) entry Hentry)
    as [[-> Hrun]|[(Hne & e & st' & Hrun & He)|(Hne & response & st' & n & Hrun & Hn)]];
    rewrite Hrun.
  - eexists _, _, _. split; [done|]. simpl. split_and!; try done.
    right; right. done.
  - rewrite He. eexists _, _, _. split; [done|]. simpl. split_and!; try done.
    right; left. by exists e.
  - rewrite Hn. eexists _, _, _. split; [done|]. simpl. split_and!; try done.
    left. by exists response, n.
Qed.

(** X20: [get_system_status] never answers with its 500: the aggregation
    behind it does not raise, so the report of [get_provider_statuses] is
    always returned. *)
Theorem get_system_status_returns reg (utcnow : W → string) st :
  ∃ report st',
    get_system_status reg utcnow st = (Returned report, st') ∧
    get_provider_statuses reg utcnow st = (inr report, st') ∧
    length (providers report) = length reg.
Proof.
  unfold get_system_status. rewrite get_provider_statuses_run.
  eexists _, _. split_and!; [done..|]. simpl. apply records_of_length.
Qed.

Lemma stream_end_fields request_id :
  stream_end request_id !! "provider" = None
  ∧ stream_end request_id !! "type" = Some "stream_end".
Proof.
  unfold stream_end. split.
  - by rewrite !lookup_insert_ne, lookup_empty.
  - by rewrite lookup_insert_ne, lookup_insert_eq.
Qed.

Lemma ws_error_type e : ws_error e !! "type" = Some "error".
Proof. unfold ws_error. by rewrite lookup_insert_ne, lookup_insert_eq. Qed.

Lemma yielded_have_provider rules reg ctx prompt task (w : W) :
  Forall (λ c, is_Some (c !! "provider"))
         (yielded (trace (route_request_stream rules reg ctx prompt task
                            (mkState w [])).2)).
Proof.
  destruct (route_request_stream_trace rules reg ctx prompt task (mkState w []))
    as [runs ->]. simpl. rewrite yielded_stream_events.
  induction runs as [|[p cs] runs IH]; simpl; [constructor|].
  apply Forall_app. split; [|done].
  apply Forall_forall. intros c (c0 & -> & _)%list_elem_of_fmap.
  rewrite lookup_insert_eq. eauto.
Qed.

(** X21: [process_task_stream] always accepts the connection first, and it
    sends the [stream_end] message exactly when the key was accepted, the
    first message was a request for a task type that is a key of the routing
    rules, and the stream of the router ended without raising; the
    [stream_end] message is then the last thing sent. *)
Theorem stream_end_sent_iff rules reg ctx (uuid4 : W → string) auth received st :
  let events := (process_task_stream rules reg ctx uuid4 auth received st).1 in
  let finished := WsSendJson (stream_end (uuid4 (world st))) in
  head events = Some WsAccept
  ∧ (finished ∈ events
     ↔ auth = None ∧
       ∃ request st',
         received = Payload request ∧
         is_Some (rules !! rq_task_type request) ∧
         route_request_stream rules reg ctx (rq_prompt request) (rq_task_type request)
           (mkState (world st) [])
         = (inr (), st'))
  ∧ (finished ∈ events → last events = Some finished).
Proof.
  intros events finished. subst events finished. unfold process_task_stream.
  pose proof (stream_end_fields (uuid4 (world st))) as [Hnoprov Htype].
  assert (Herr : ∀ e, WsSendJson (stream_end (uuid4 (world st))) ≠ WsSendJson (ws_error e)).
  { intros e Heq.
    assert (Hty : stream_end (uuid4 (world st)) !! "type" = ws_error e !! "type")
      by congruence.
    rewrite Htype, ws_error_type in Hty. discriminate. }
  destruct auth as [detail|].
  { simpl. split_and!; [done| |].
    - split; [|by intros [[=] _]].
      intros Hin. repeat (apply elem_of_cons in Hin as [Hin|Hin]; [discriminate|]).
      by apply elem_of_nil in Hin.
    - intros Hin. repeat (apply elem_of_cons in Hin as [Hin|Hin]; [discriminate|]).
      by apply elem_of_nil in Hin. }
  destruct received as [request| |e].
  - destruct (rules !! rq_task_type request) as [entry|] eqn:Hentry.
    + pose proof (yielded_have_provider rules reg ctx (rq_prompt request)
                    (rq_task_type request) (world st)) as Hchunks.
      destruct (route_request_stream rules reg ctx (rq_prompt request)
                  (rq_task_type request) (mkState (world st) []))
        as [outcome st'] eqn:Hrun. simpl in *.
      assert (Hnotchunk :
        WsSendJson (stream_end (uuid4 (world st)))
          ∉ map WsSendJson (yielded (trace st'))).
      { intros (c & [= <-] & Hc)%list_elem_of_fmap.
        rewrite Forall_forall in Hchunks. apply Hchunks in Hc as [? Hc].
        rewrite Hnoprov in Hc. discriminate. }
      split_and!; [done| |].
      * split.
        -- intros Hin. split; [done|]. exists request, st'.
           split_and!; [done|eauto|].
           apply elem_of_cons in Hin as [Hin|Hin]; [discriminate|].
           apply elem_of_app in Hin as [Hin|Hin]; [done|].
           apply list_elem_of_singleton in Hin.
           destruct outcome as [e|[]]; [by apply Herr in Hin|done].
        -- intros (_ & request' & st'' & [= <-] & _ & Hrun').
           rewrite Hrun in Hrun'. injection Hrun' as -> ->.
           apply elem_of_cons. right. apply elem_of_app. right. constructor.
      * intros Hin.
        apply elem_of_cons in Hin as [Hin|Hin]; [discriminate|].
        apply elem_of_app in Hin as [Hin|Hin]; [done|].
        apply list_elem_of_singleton in Hin.
        destruct outcome as [e|[]]; [by apply Herr in Hin|].
        rewrite app_comm_cons. by rewrite last_snoc.
    + simpl. split_and!; [done| |].
      * split.
        -- intros Hin. apply elem_of_cons in Hin as [Hin|Hin]; [discriminate|].
           apply list_elem_of_singleton in Hin. by apply Herr in Hin.
        -- intros (_ & request' & st'' & [= <-] & [? Hsome] & _). congruence.
      * intros Hin. apply elem_of_cons in Hin as [Hin|Hin]; [discriminate|].
        apply list_elem_of_singleton in Hin. by apply Herr in Hin.
  - simpl. split_and!; [done| |].
    + split; [|by intros (_ & ? & ? & [=] & _)].
      intros Hin. apply list_elem_of_singleton in Hin. discriminate.
    + intros Hin. apply list_elem_of_singleton in Hin. discriminate.
  - simpl. split_and!; [done| |].
    + split; [|by intros (_ & ? & ? & [=] & _)].
      intros Hin. apply elem_of_cons in Hin as [Hin|Hin]; [discriminate|].
      apply list_elem_of_singleton in Hin. by apply Herr in Hin.
    + intros Hin. apply elem_of_cons in Hin as [Hin|Hin]; [discriminate|].
      apply list_elem_of_singleton in Hin. by apply Herr in Hin.
Qed.

End Endpoints.

(** ** The streaming endpoint over a loaded registry *)

Section LoadedEndpoint.
Context {W : Type}.

(** X22: with a registry filled by [_load_providers], a streaming request
    for a listed task type that has a streaming candidate always ends with
    [stream_end]: the messages sent are the chunks of the first candidate,
    under its name, followed by [stream_end], whatever the backend did; a
    failure of the backend reaches the client only as a chunk of the
    provider. *)
Theorem loaded_stream_endpoint (backend : Backend W) file rules ctx (uuid4 : W → string)
    request st entry p ps :
  let reg := _load_providers backend file in
  let full := SystemContext.get_system_prompt ctx (rq_prompt request) in
  rules !! rq_task_type request = Some entry →
  providers_to_try_stream reg entry = p :: ps →
  ∃ chunks w',
    generate_stream_async p full (world st) = ((chunks, None), w') ∧
    (process_task_stream rules reg ctx uuid4 None (Payload request) st).1
    = WsAccept
        :: map (λ chunk, WsSendJson (<["provider" := name p]> chunk)) chunks
        ++ [WsSendJson (stream_end (uuid4 (world st)))].
Proof.
  intros reg full Hentry Hcands.
  assert (Hp : stream_never_raises p).
  { eapply loaded_candidate_stream_ends. unfold reg in Hcands. rewrite Hcands. constructor. }
  specialize (Hp full (world st)).
  destruct (generate_stream_async p full (world st)) as [[chunks failure] w'] eqn:E.
  simpl in Hp. subst failure. exists chunks, w'. split; [done|].
  unfold process_task_stream. rewrite Hentry.
  rewrite (route_request_stream_candidates rules reg ctx (rq_prompt request)
             (rq_task_type request) entry p ps
             (explicit_entry_resolves _ _ _ Hentry) Hcands).
  rewrite (failover_stream_step_end ctx (rq_prompt request) p ps []
             (mkState (world st) []) chunks w' E).
  simpl. f_equal. f_equal. rewrite yielded_forwarded. by rewrite map_map.
Qed.

End LoadedEndpoint.

(** ** The signature of a Paddle webhook *)

Section Webhook.
Context (hmac_sha256 : string → string → string).

Lemma append_empty_r (s : string) : s +:+ EmptyString = s.
Proof.
  induction s as [|a s IH]; [done|].
  change (String a (s +:+ EmptyString) = String a s). by rewrite IH.
Qed.

Lemma str_split_nonempty sep s : str_split sep s ≠ [].
Proof.
  destruct s as [|a s]; simpl; [done|].
  destruct (Ascii.eqb a sep); [done|]. by destruct (str_split sep s).
Qed.

(** A string without the separator is a single part. *)
Lemma str_split_without sep s :
  forallb (λ a, negb (Ascii.eqb a sep)) (String.list_ascii_of_string s) = true →
  str_split sep s = [s].
Proof.
  induction s as [|a s IH]; simpl; [done|].
  intros [Ha Hs]%andb_true_iff. apply negb_true_iff in Ha. rewrite Ha.
  by rewrite IH.
Qed.

Lemma str_split_append sep s1 s2 x xs :
  forallb (λ a, negb (Ascii.eqb a sep)) (String.list_ascii_of_string s1) = true →
  str_split sep s2 = x :: xs →
  str_split sep (s1 +:+ s2) = (s1 +:+ x) :: xs.
Proof.
  intros Hs1 Hs2. induction s1 as [|a s1 IH]; simpl in *; [done|].
  apply andb_true_iff in Hs1 as [Ha Hs1]. apply negb_true_iff in Ha.
  change (String a s1 +:+ s2) with (String a (s1 +:+ s2)). simpl.
  by rewrite Ha, IH.
Qed.

(** X23: [verify_webhook_signature] lets a request through only when the
    signing secret is set and the header gives a timestamp and a hash that
    is the HMAC, under the secret, of the timestamp, a colon and the body of
    the request; without a secret it answers 500, and with a secret but
    without a header 401. *)
Theorem webhook_signature_sound secret paddle_signature raw_body :
  (verify_webhook_signature hmac_sha256 secret paddle_signature raw_body = Returned () →
   ∃ key header parts ts h1 body,
     secret = Some key ∧ nonempty key = true ∧
     paddle_signature = Some header ∧
     signature_parts (str_split ";" header) ∅ = Some parts ∧
     parts !! "ts" = Some ts ∧ parts !! "h1" = Some h1 ∧
     raw_body = inr body ∧
     h1 = hmac_sha256 key (ts +:+ ":" +:+ body))
  ∧ (truthy secret = false →
     verify_webhook_signature hmac_sha256 secret paddle_signature raw_body
     = HTTPException 500 "Webhook processing misconfigured.")
  ∧ (truthy secret = true → truthy paddle_signature = false →
     verify_webhook_signature hmac_sha256 secret paddle_signature raw_body
     = HTTPException 401 "Missing webhook signature.").
Proof.
  unfold verify_webhook_signature. split_and!.
  - destruct secret as [key|]; simpl; [|discriminate].
    destruct (nonempty key) eqn:Hkey; simpl; [|discriminate].
    destruct paddle_signature as [header|]; simpl; [|discriminate].
    destruct (nonempty header); simpl; [|discriminate].
    destruct (signature_parts _ ∅) as [parts|] eqn:Hparts; [|discriminate].
    destruct (parts !! "ts") as [ts|] eqn:Hts; simpl; [|discriminate].
    destruct (nonempty ts); simpl; [|discriminate].
    destruct (parts !! "h1") as [h1|] eqn:Hh1; simpl; [|discriminate].
    destruct (nonempty h1); simpl; [|discriminate].
    destruct raw_body as [e|body]; [discriminate|].
    destruct (is_ascii _ && is_ascii h1); [|discriminate].
    destruct (String.eqb _ h1) eqn:Heq; [|discriminate].
    intros _. apply String.eqb_eq in Heq.
    exists key, header, parts, ts, h1, body. by split_and!.
  - by intros ->.
  - by intros -> ->.
Qed.

(** X24: a header of the form [ts=T;h1=H], where [T] and [H] are not empty
    and hold neither [;] nor [=], passes [verify_webhook_signature] when
    [H] is the HMAC of [T], a colon and the body under the secret, and is
    answered with 403 when it is another string of ASCII characters. *)
Theorem webhook_signature_complete key ts h1 body :
  let no_separator s :=
    forallb (λ a, negb (Ascii.eqb a ";") && negb (Ascii.eqb a "="))
            (String.list_ascii_of_string s) in
  let header := "ts=" +:+ ts +:+ ";h1=" +:+ h1 in
  let expected := hmac_sha256 key (ts +:+ ":" +:+ body) in
  nonempty key = true → nonempty ts = true → nonempty h1 = true →
  no_separator ts = true → no_separator h1 = true →
  is_ascii expected = true → is_ascii h1 = true →
  verify_webhook_signature hmac_sha256 (Some key) (Some header) (inr body)
  = if String.eqb expected h1 then Returned ()
    else HTTPException 403 "Invalid webhook signature.".
Proof.
  intros no_separator header expected Hkey Hts Hh1 Hsts Hsh1 Hae Hah.
  assert (Hsemi : ∀ s, no_separator s = true →
            forallb (λ a, negb (Ascii.eqb a ";")) (String.list_ascii_of_string s) = true).
  { intros s. unfold no_separator. rewrite !forallb_forall.
    intros H a Ha. by apply H, andb_true_iff in Ha as [? _]. }
  assert (Heq : ∀ s, no_separator s = true →
            forallb (λ a, negb (Ascii.eqb a "=")) (String.list_ascii_of_string s) = true).
  { intros s. unfold no_separator. rewrite !forallb_forall.
    intros H a Ha. by apply H, andb_true_iff in Ha as [_ ?]. }
  assert (Hsplit : str_split ";" header = ["ts=" +:+ ts; "h1=" +:+ h1]).
  { unfold header.
    change ("ts=" +:+ ts +:+ ";h1=" +:+ h1)
      with (String "t" (String "s" (String "=" (ts +:+ String ";" ("h1=" +:+ h1))))).
    simpl.
    rewrite (str_split_append ";" ts _ EmptyString ["h1=" +:+ h1]); [|by apply Hsemi|].
    - by rewrite append_empty_r.
    - simpl. change (str_split ";" (String "h" (String "1" (String "=" h1))))
        with (str_split ";" ("h1=" +:+ h1)).
      rewrite str_split_without; [done|]. simpl. by apply Hsemi.
    }
  assert (Hpart : ∀ k v, forallb (λ a, negb (Ascii.eqb a "="))
                           (String.list_ascii_of_string k) = true →
                         no_separator v = true →
                         str_split "=" (k +:+ "=" +:+ v) = [k; v]).
  { intros k v Hk Hv.
    rewrite (str_split_append "=" k _ EmptyString [v]); [|done|].
    - by rewrite append_empty_r.
    - simpl. rewrite str_split_without; [done|]. by apply Heq. }
  assert (Hparts : signature_parts (str_split ";" header) ∅
                   = Some (<["h1" := h1]> (<["ts" := ts]> ∅))).
  { rewrite Hsplit. cbn [signature_parts].
    change ("ts=" +:+ ts) with ("ts" +:+ "=" +:+ ts).
    rewrite (Hpart "ts" ts) by done.
    change ("h1=" +:+ h1) with ("h1" +:+ "=" +:+ h1).
    by rewrite (Hpart "h1" h1) by done. }
  assert (Hheader : nonempty header = true) by done.
  unfold verify_webhook_signature.
  change (truthy (Some key)) with (nonempty key). rewrite Hkey.
  change (truthy (Some header)) with (nonempty header). rewrite Hheader.
  change (default EmptyString (Some header)) with header.
  change (default EmptyString (Some key)) with key.
  cbn [negb]. rewrite Hparts. cbv zeta.
  rewrite lookup_insert_ne, lookup_insert_eq by done. rewrite lookup_insert_eq.
  change (truthy (Some ts)) with (nonempty ts).
  change (truthy (Some h1)) with (nonempty h1).
  change (default EmptyString (Some ts)) with ts.
  change (default EmptyString (Some h1)) with h1.
  rewrite Hts, Hh1. cbn [negb orb].
  fold expected. by rewrite Hae, Hah.
Qed.

End Webhook.

(** ** The probes of the concrete providers *)

Section Probes.
Context {W : Type} (backend : Backend W).

(** X25: the probes of the two concrete providers never raise.  The Gemini
    probe reports [Active] exactly when the key is not empty, listing the
    models succeeds and the name of some listed model ends with the
    configured model, and [Error] otherwise.  The Ollama probe reports
    [Active] exactly when the request to [/api/tags] goes through, [Offline]
    exactly when it raises a request error of the HTTP client, and [Error]
    otherwise. *)
Theorem probe_status_meaning api_key model_name base_url w :
  (∃ s d w',
     Gemini_check_health backend api_key model_name w = (inr (health s d), w') ∧
     (s = "Active" ∨ s = "Error") ∧
     (s = "Active"
      ↔ nonempty api_key = true ∧
        ∃ models, (genai_list_models backend api_key w).1 = inr models ∧
                  existsb (λ m, endswith m model_name) models = true))
  ∧ (∃ s d w',
       Ollama_check_health backend base_url w = (inr (health s d), w') ∧
       (s = "Active" ∨ s = "Offline" ∨ s = "Error") ∧
       let outcome :=
         (httpx_get backend (rstrip_char "/" base_url +:+ "/api/tags") w).1 in
       (s = "Active" ↔ nonempty base_url = true ∧ outcome = None) ∧
       (s = "Offline"
        ↔ nonempty base_url = true ∧
          ∃ e, outcome = Some e ∧ exn_class e = HttpxRequestError)).
Proof.
  split.
  - unfold Gemini_check_health. destruct (nonempty api_key); simpl.
    + destruct (genai_list_models backend api_key w) as [[e|models] w'] eqn:E; simpl.
      * eexists _, _, _. split; [done|]. split; [by right|].
        split; [discriminate|]. by intros (_ & models & [=] & _).
      * destruct (existsb _ models) eqn:Hm; eexists _, _, _; (split; [done|]).
        -- split; [by left|]. split; [|done]. intros _. split; [done|]. eauto.
        -- split; [by right|]. split; [discriminate|].
           intros (_ & models' & [= <-] & Hm'). congruence.
    + eexists _, _, _. split; [done|]. split; [by right|].
      split; [discriminate|]. by intros [[=] _].
  - unfold Ollama_check_health. destruct (nonempty base_url); simpl.
    + destruct (httpx_get backend _ w) as [[e|] w'] eqn:E; simpl.
      * destruct (exn_class e) eqn:He; eexists _, _, _; (split; [done|]);
          (split; [auto|]); split;
          try (split; [discriminate|by intros [_ [=]]]);
          try (split; [discriminate|intros (_ & e' & [= <-] & He'); congruence]).
        split; [|done]. intros _. split; [done|]. eauto.
      * eexists _, _, _. split; [done|]. split; [auto|]. split.
        -- done.
        -- split; [discriminate|]. by intros (_ & e & [=] & _).
    + eexists _, _, _. split; [done|]. split; [auto|]. split.
      * split; [discriminate|]. by intros [[=] _].
      * split; [discriminate|]. by intros [[=] _].
Qed.

End Probes.

(** ** The further properties on sample configurations *)

(** [gemini-primary] of the sample registry comes from its entry. *)
Lemma registered_provider_origin_witness :
  ∃ p, get_provider sample_registry "gemini-primary" = Some p
       ∧ name p = "gemini-primary" ∧ enabled p = true
       ∧ supports_streaming p = true.
Proof.
  assert (Hget : ∃ p, get_provider sample_registry "gemini-primary" = Some p)
    by (vm_compute; eauto).
  destruct Hget as [p Hp]. exists p. split; [exact Hp|].
  destruct (registered_provider_origin quiet_backend sample_providers_yaml
              "gemini-primary" p Hp)
    as (entries & c & _ & _ & _ & _ & _ & Hname & Hen & Hs & _).
  split_and!; [exact Hname|exact Hen|exact Hs].
Defined.

(** The entry of [gemini-primary] can be instantiated, and is registered. *)
Lemma loadable_entry_is_registered_witness :
  ∃ p', get_provider sample_registry "gemini-primary" = Some p'
        ∧ name p' = "gemini-primary".
Proof.
  assert (Hi : ∃ p, instantiate quiet_backend entry_gemini_primary
                    = Some ("gemini-primary", p)) by (vm_compute; eauto).
  destruct Hi as [p Hp].
  apply (loadable_entry_is_registered quiet_backend sample_providers_yaml
           [entry_gemini_primary;
            EntryDict {| cfg_name := Some "ollama-failover"; cfg_type := Some "ollama";
                         cfg_enabled := Some false; cfg_priority := Some 2%Z;
                         cfg_model := None; cfg_api_key_env := None;
                         cfg_base_url_env := None |}]
           entry_gemini_primary "gemini-primary" p);
    [reflexivity|constructor|exact Hp].
Defined.

(** An entry whose key is not in the environment changes nothing. *)
Lemma skipped_entry_leaves_registry_witness :
  instantiate quiet_backend entry_without_key = None
  ∧ _load_providers quiet_backend
      (FileParsed (Some (<["providers" :=
         PVList ([entry_gemini_primary] ++ entry_without_key :: [entry_ollama_failover])]> ∅)))
    = _load_providers quiet_backend
        (FileParsed (Some (<["providers" :=
           PVList ([entry_gemini_primary] ++ [entry_ollama_failover])]> ∅))).
Proof.
  assert (Hbad : instantiate quiet_backend entry_without_key = None) by (by vm_compute).
  split; [exact Hbad|].
  exact (skipped_entry_leaves_registry quiet_backend ∅ [entry_gemini_primary]
           entry_without_key [entry_ollama_failover] Hbad).
Defined.

(** The built-in rules over the sample registry: the response has the two
    fields. *)
Lemma loaded_route_response_witness :
  ∃ seq n p text,
    resolve built_in_rules "chat" = Some seq ∧ n ∈ seq ∧
    get_provider sample_registry n = Some p ∧
    (<["text" := "OK"]> (<["provider" := "gemini-primary"]> ∅) : gmap string string)
    = <["text" := text]> (<["provider" := n]> ∅) ∧
    dom (<["text" := "OK"]> (<["provider" := "gemini-primary"]> ∅) : gmap string string)
    = {["provider"; "text"]}.
Proof.
  apply (loaded_route_response quiet_backend sample_providers_yaml built_in_rules
           no_context "hi" "chat" start _
           (mkState () [EvGetSystemPrompt "hi"; EvGenerate "gemini-primary" "hi"])).
  by vm_compute.
Defined.

(** A missing [providers.yaml] leaves nothing to route to. *)
Lemma nothing_to_load_witness :
  _load_providers quiet_backend FileMissing = []
  ∧ ∃ e, route_request built_in_rules (_load_providers quiet_backend FileMissing)
           no_context "hi" "chat" start = (inl e, start).
Proof.
  destruct (nothing_to_load quiet_backend FileMissing built_in_rules no_context epoch
              "hi" "chat" start eq_refl) as (Hnil & Hroute & _).
  split; [exact Hnil|exact Hroute].
Defined.

(** The streams of [p1] and [p2] both raise. *)
Lemma route_request_stream_all_fail_witness :
  route_request_stream sample_rules both_failing no_context "hi" "summarize" start
  = (inl (mkExn NoAvailableProviderError
            "All streaming providers failed. Errors: p1: connection refused; p2: timeout"),
     mkState () [EvGetSystemPrompt "hi"; EvStream "p1" "hi";
                 EvGetSystemPrompt "hi"; EvStream "p2" "hi"]).
Proof.
  refine (proj2 (route_request_stream_all_fail sample_rules both_failing no_context
            "hi" "summarize" ["p1"; "p2"]
            [([], boom "connection refused"); ([], boom "timeout")]
            start () _ _ _)); by vm_compute.
Defined.

(** The Gemini stream breaks after one token; the Ollama provider, second in
    line, is not called. *)
Lemma loaded_stream_commits_to_first_witness :
  ∃ p ps chunks w',
    default [] (providers_to_try_stream flaky_registry <$> resolve built_in_rules "chat")
    = p :: ps ∧ length ps = 1 ∧
    route_request_stream built_in_rules flaky_registry no_context "hi" "chat" start
    = (inr (), mkState w' ([] ++ stream_attempt "hi" "hi" (p, chunks))) ∧
    streamed (stream_attempt "hi" "hi" (p, chunks)) = ["gemini-primary"] ∧
    length chunks = 2.
Proof.
  assert (Hc : ∃ p ps,
    default [] (providers_to_try_stream flaky_registry <$> resolve built_in_rules "chat")
    = p :: ps ∧ length ps = 1 ∧ name p = "gemini-primary"
    ∧ ∀ w, length (generate_stream_async p "hi" w).1.1 = 2).
  { vm_compute. eexists _, _. split; [reflexivity|]. split; [reflexivity|].
    split; [reflexivity|]. intros w. reflexivity. }
  destruct Hc as (p & ps & Hcands & Hlen & Hname & Hchunks).
  destruct (loaded_stream_commits_to_first flaky_backend both_enabled_yaml built_in_rules
              no_context "hi" "chat" start p ps Hcands)
    as (chunks & w' & Hgen & Hrun & Hstreamed).
  exists p, ps, chunks, w'. split_and!; [exact Hcands|exact Hlen|exact Hrun| |].
  - change (SystemContext.get_system_prompt no_context "hi") with "hi" in Hstreamed.
    rewrite Hstreamed. by rewrite Hname.
  - specialize (Hchunks (world start)).
    change (SystemContext.get_system_prompt no_context "hi") with "hi" in Hgen.
    by rewrite Hgen in Hchunks.
Defined.

(** Nothing is missing for the two sample entries, and the Ollama entry,
    which names its variable, is registered. *)
Lemma no_missing_credentials_suffice_witness :
  get_missing_provider_credentials (environ quiet_backend) both_enabled_yaml = []
  ∧ ∃ p, get_provider (_load_providers quiet_backend both_enabled_yaml) "ollama-failover"
         = Some p ∧ name p = "ollama-failover".
Proof.
  assert (Hmissing :
    get_missing_provider_credentials (environ quiet_backend) both_enabled_yaml = [])
    by (by vm_compute).
  split; [exact Hmissing|].
  apply (no_missing_credentials_suffice quiet_backend both_enabled_yaml
           [entry_gemini_primary; entry_ollama_failover]
           {| cfg_name := Some "ollama-failover"; cfg_type := Some "ollama";
              cfg_enabled := None; cfg_priority := Some 2%Z;
              cfg_model := None; cfg_api_key_env := None;
              cfg_base_url_env := Some "OLLAMA_API_URL" |}
           "ollama-failover" Hmissing);
    [reflexivity|by repeat constructor|reflexivity|reflexivity|discriminate|].
  left. split; reflexivity.
Defined.

(** A request for [summarize], with a failing [p1] and an answering [p2]:
    one audit record is written. *)
Lemma process_task_llm_path_witness :
  sample_rules !! "summarize" = Some ["p1"; "p2"]
  ∧ ∃ reply st' ia,
      process_task sample_rules failing_then_ok no_context fixed_uuid no_latency no_skill
        summarize_request (mkServerState start [])
      = (reply, mkServerState st' ([] ++ [ia]))
      ∧ ia_request_id ia = "req-1" ∧ ia_task_type ia = "summarize" ∧ ia_prompt ia = "hi".
Proof.
  assert (Hentry : sample_rules !! rq_task_type summarize_request = Some ["p1"; "p2"])
    by (by vm_compute).
  split; [exact Hentry|].
  destruct (process_task_llm_path sample_rules failing_then_ok no_context fixed_uuid
              no_latency no_skill summarize_request (mkServerState start [])
              ["p1"; "p2"] Hentry)
    as (reply & st' & ia & Hrun & Hid & Htask & Hprompt & _).
  exists reply, st', ia. split_and!; [exact Hrun|exact Hid|exact Htask|exact Hprompt].
Defined.

(** The Gemini stream breaks after one token: the client receives the
    token, the error chunk of the provider and then [stream_end]. *)
Lemma loaded_stream_endpoint_witness :
  ∃ p ps chunks,
    providers_to_try_stream flaky_registry ["gemini-primary"; "ollama-failover"] = p :: ps
    ∧ (process_task_stream built_in_rules flaky_registry no_context fixed_uuid None
         (Payload chat_request) start).1
      = WsAccept
          :: map (λ chunk, WsSendJson (<["provider" := name p]> chunk)) chunks
          ++ [WsSendJson (stream_end "req-1")]
    ∧ length chunks = 2.
Proof.
  assert (Hc : ∃ p ps,
    providers_to_try_stream flaky_registry ["gemini-primary"; "ollama-failover"] = p :: ps
    ∧ ∀ w, length (generate_stream_async p "hi" w).1.1 = 2).
  { vm_compute. eexists _, _. split; [reflexivity|]. intros w. reflexivity. }
  destruct Hc as (p & ps & Hcands & Hchunks).
  destruct (loaded_stream_endpoint flaky_backend both_enabled_yaml built_in_rules
              no_context fixed_uuid chat_request start
              ["gemini-primary"; "ollama-failover"] p ps eq_refl Hcands)
    as (chunks & w' & Hgen & Hevents).
  exists p, ps, chunks. split_and!; [exact Hcands|exact Hevents|].
  specialize (Hchunks (world start)).
  change (SystemContext.get_system_prompt no_context (rq_prompt chat_request))
    with "hi" in Hgen.
  by rewrite Hgen in Hchunks.
Defined.

(** A header with the expected digest passes. *)
Lemma webhook_signature_complete_witness :
  verify_webhook_signature fixed_digest (Some "whsec")
    (Some "ts=1700000000;h1=0a1b2c") (inr "{}")
  = Returned ().
Proof.
  apply (webhook_signature_complete fixed_digest "whsec" "1700000000" "0a1b2c" "{}");
    reflexivity.
Defined.
